(** * Ant-inspired path integration

    A shallow embedding of [ant_trajectory.py] and the properties of its
    exploration loop and of its homing computation.

    The script computes on binary64 numbers; they are modelled by Rocq's
    primitive floats, so that [+], [-], [*], [/] and [sqrt] round exactly
    as they do in Python.  What the script takes from outside is kept
    abstract: the C library functions behind [np.cos], [np.sin],
    [np.arctan2] and [**], and the random generator behind
    [np.random.seed] and [np.random.uniform]. *)

From Stdlib Require Import ZArith List Bool Lia Floats QArith Qround.
Import ListNotations.

Local Open Scope Z_scope.

(** ** Python values and failures *)

(** The exceptions the core of the script can raise. *)
Inductive exn : Type :=
| ZeroDivisionError
| ValueError
| OverflowError.

Inductive result (A : Type) : Type :=
| Ok (a : A)
| Raise (e : exn).

Arguments Ok {A} a.
Arguments Raise {A} e.

Definition bind {A B : Type} (r : result A) (k : A -> result B) : result B :=
  match r with
  | Ok a => k a
  | Raise e => Raise e
  end.

Notation "v <- r ;; k" := (bind r (fun v => k))
  (at level 61, r at next level, right associativity).

(** [range(n)]: empty when [n] is zero or negative. *)
Definition range (n : Z) : list Z := map Z.of_nat (seq 0 (Z.to_nat n)).

(** [for a in items: body], stopping at the first exception. *)
Fixpoint for_loop {A S : Type} (items : list A) (body : A -> S -> result S)
  (s : S) : result S :=
  match items with
  | [] => Ok s
  | a :: rest => s' <- body a s ;; for_loop rest body s'
  end.

(** [a % b] on Python integers: the sign follows the divisor, as [Z.modulo]
    does, and a zero divisor raises. *)
Definition py_mod (a b : Z) : result Z :=
  if b =? 0 then Raise ZeroDivisionError else Ok (a mod b).

(** ** Binary64 *)

Module F64.

Local Open Scope float_scope.

(** [np.pi], the binary64 number nearest to pi. *)
Definition pi : float := 0x1.921fb54442d18p+1.

(** [int(f)]: truncation toward zero; NaN and the infinities raise. *)
Definition py_int (f : float) : result Z :=
  match Prim2SF f with
  | S754_zero _ => Ok 0%Z
  | S754_infinity _ => Raise OverflowError
  | S754_nan => Raise ValueError
  | S754_finite s m e =>
      Ok (cond_Zopp s (if (0 <=? e)%Z then Z.pos m * 2 ^ e
                       else Z.pos m / 2 ^ (- e)))%Z
  end.

(** The rational a finite float stands for ([None] for NaN and the
    infinities). *)
Definition to_Q (f : float) : option Q :=
  match Prim2SF f with
  | S754_zero _ => Some 0%Q
  | S754_finite s m e =>
      Some (if (0 <=? e)%Z then inject_Z (cond_Zopp s (Z.pos m * 2 ^ e))
            else Qmake (cond_Zopp s (Z.pos m)) (Z.to_pos (2 ^ (- e))))
  | _ => None
  end.

(** A float that is a number, not NaN and not an infinity. *)
Definition finite (f : float) : bool :=
  match Prim2SF f with
  | S754_zero _ | S754_finite _ _ _ => true
  | _ => false
  end.

(** Nothing negative: a zero, a NaN, or a float whose sign bit is
    clear. *)
Definition sf_nonneg (f : spec_float) : bool :=
  match f with
  | S754_zero _ | S754_nan => true
  | S754_infinity s | S754_finite s _ _ => negb s
  end.

Definition nonneg (f : float) : bool := sf_nonneg (Prim2SF f).

End F64.

(** ** What the script imports *)

(** The elementary functions, whose roundings no standard fixes. *)
Record MathLib : Type := {
  np_cos : float -> float;
  np_sin : float -> float;
  np_arctan2 : float -> float -> float;
  (** [a ** b] *)
  float_pow : float -> float -> float
}.

(** NumPy's global generator: [np.random.seed] makes a state, and
    [np.random.uniform(low, high)] draws from it and advances it. *)
Record RandomSource : Type := {
  rng_state : Type;
  np_random_seed : Z -> rng_state;
  np_random_uniform : float -> float -> rng_state -> float * rng_state
}.

(** ** Simulation parameters (lines 61-69) *)

Record Config : Type := {
  seed : Z;
  step_length : float;
  num_explore_steps : Z;
  scan_interval : Z;
  scan_gain : float;
  sun_direction : float
}.

(** The values the script fixes. *)
Definition script_config : Config := {|
  seed := 1;
  step_length := 0.5;
  num_explore_steps := 120;
  scan_interval := 10;
  scan_gain := 0x1.999999999999ap-4;
  sun_direction := 0
|}.

Section Script.

Variable M : MathLib.
Variable R : RandomSource.

Local Open Scope float_scope.

(** *** State variables (lines 77-90) *)

Record Vars : Type := {
  x : float;
  y : float;
  Dx : float;
  Dy : float;
  theta : float;
  explore_x : list float;
  explore_y : list float;
  Dx_hist : list float;
  Dy_hist : list float;
  theta_hist : list float;
  rng : rng_state R
}.

Definition initial (g : rng_state R) : Vars := {|
  x := 0; y := 0;
  Dx := 0; Dy := 0;
  theta := 0;
  explore_x := [0];
  explore_y := [0];
  Dx_hist := [0];
  Dy_hist := [0];
  theta_hist := [0];
  rng := g
|}.

(** *** Exploration phase (lines 96-123) *)

(** The bounds handed to [np.random.uniform]. *)
Definition low : float := (- F64.pi) / 4.
Definition high : float := F64.pi / 4.

(** The generator after [k] draws, and the [k]-th perturbation it
    yields (counting from zero). *)
Definition rng_after (k : nat) (g : rng_state R) : rng_state R :=
  Nat.iter k (fun g' => snd (np_random_uniform R low high g')) g.

Definition perturbation (g : rng_state R) (k : nat) : float :=
  fst (np_random_uniform R low high (rng_after k g)).

(** One pass through the body of the exploration loop. *)
Definition explore_body (c : Config) (step : Z) (v : Vars) : result Vars :=
  let (delta, g) := np_random_uniform R low high (rng v) in
  let theta1 := theta v + delta in
  let dx := step_length c * np_cos M theta1 in
  let dy := step_length c * np_sin M theta1 in
  let x1 := x v + dx in
  let y1 := y v + dy in
  let Dx1 := Dx v + dx in
  let Dy1 := Dy v + dy in
  r <- py_mod step (scan_interval c) ;;
  let theta2 :=
    if (r =? 0)%Z
    then theta1 - scan_gain c * (theta1 - sun_direction c)
    else theta1 in
  Ok {| x := x1; y := y1;
        Dx := Dx1; Dy := Dy1;
        theta := theta2;
        explore_x := explore_x v ++ [x1];
        explore_y := explore_y v ++ [y1];
        Dx_hist := Dx_hist v ++ [Dx1];
        Dy_hist := Dy_hist v ++ [Dy1];
        theta_hist := theta_hist v ++ [theta2];
        rng := g |}.

Definition explore (c : Config) (g : rng_state R) : result Vars :=
  for_loop (range (num_explore_steps c)) (explore_body c) (initial g).

(** The first [k] passes of the loop. *)
Definition explore_upto (c : Config) (g : rng_state R) (k : nat)
  : result Vars :=
  for_loop (range (Z.of_nat k)) (explore_body c) (initial g).

(** *** Returning to the nest (lines 126-147) *)

Record Homing : Type := {
  food_x : float;
  food_y : float;
  home_x : list float;
  home_y : list float
}.

Definition home_body (c : Config) (home_angle : float) (_ : Z) (h : Homing)
  : result Homing :=
  let fx := food_x h + step_length c * np_cos M home_angle in
  let fy := food_y h + step_length c * np_sin M home_angle in
  Ok {| food_x := fx; food_y := fy;
        home_x := home_x h ++ [fx];
        home_y := home_y h ++ [fy] |}.

(** Everything the script has computed when the plotting starts. *)
Record Run : Type := {
  explored : Vars;
  R_mag : float;
  R_angle : float;
  home_angle : float;
  num_home_steps : Z;
  homing : Homing
}.

Definition go_home (c : Config) (v : Vars) : result Run :=
  let mag := sqrt (float_pow M (Dx v) 2 + float_pow M (Dy v) 2) in
  let ang := np_arctan2 M (Dy v) (Dx v) in
  let hang := ang + F64.pi in
  n <- F64.py_int (mag / step_length c) ;;
  h <- for_loop (range n) (home_body c hang)
         {| food_x := x v; food_y := y v;
            home_x := [x v]; home_y := [y v] |} ;;
  Ok {| explored := v;
        R_mag := mag; R_angle := ang; home_angle := hang;
        num_home_steps := n;
        homing := h |}.

(** The script from its first line to line 147. *)
Definition simulate (c : Config) : result Run :=
  v <- explore c (np_random_seed R (seed c)) ;;
  go_home c v.

End Script.

Arguments x {R} v.
Arguments y {R} v.
Arguments Dx {R} v.
Arguments Dy {R} v.
Arguments theta {R} v.
Arguments explore_x {R} v.
Arguments explore_y {R} v.
Arguments Dx_hist {R} v.
Arguments Dy_hist {R} v.
Arguments theta_hist {R} v.
Arguments rng {R} v.
Arguments explored {R} r.
Arguments R_mag {R} r.
Arguments R_angle {R} r.
Arguments home_angle {R} r.
Arguments num_home_steps {R} r.
Arguments homing {R} r.

(** ** Notions the statements use *)

(** The points of a walk of [n] equal steps [d] from [p] on one axis,
    [p] itself left out. *)
Fixpoint straight (p d : float) (n : nat) : list float :=
  match n with
  | O => []
  | S n' => (p + d)%float :: straight (p + d)%float d n'
  end.

(** What the plotting code reads of a run: the recorded sequences and
    the summary of the return, without the generator. *)
Record Observation : Type := {
  obs_explore_x : list float;
  obs_explore_y : list float;
  obs_Dx_hist : list float;
  obs_Dy_hist : list float;
  obs_theta_hist : list float;
  obs_home_x : list float;
  obs_home_y : list float;
  obs_R_mag : float;
  obs_home_angle : float
}.

Definition observe {R : RandomSource} (r : Run R) : Observation := {|
  obs_explore_x := explore_x (explored r);
  obs_explore_y := explore_y (explored r);
  obs_Dx_hist := Dx_hist (explored r);
  obs_Dy_hist := Dy_hist (explored r);
  obs_theta_hist := theta_hist (explored r);
  obs_home_x := home_x (homing r);
  obs_home_y := home_y (homing r);
  obs_R_mag := R_mag r;
  obs_home_angle := home_angle r
|}.

Section Passes.

Variable M : MathLib.
Variable R : RandomSource.

Local Open Scope float_scope.

(** What one successful pass does to every variable. *)
Record pass (c : Config) (step : Z) (v v' : Vars R) : Prop := {
  pass_scan : exists r, py_mod step (scan_interval c) = Ok r /\
    theta v' =
      let t := theta v + fst (np_random_uniform R (low) (high) (rng v)) in
      if (r =? 0)%Z then t - scan_gain c * (t - sun_direction c) else t;
  pass_x : x v' = x v + step_length c *
    np_cos M (theta v + fst (np_random_uniform R low high (rng v)));
  pass_y : y v' = y v + step_length c *
    np_sin M (theta v + fst (np_random_uniform R low high (rng v)));
  pass_Dx : Dx v' = Dx v + step_length c *
    np_cos M (theta v + fst (np_random_uniform R low high (rng v)));
  pass_Dy : Dy v' = Dy v + step_length c *
    np_sin M (theta v + fst (np_random_uniform R low high (rng v)));
  pass_rng : rng v' = snd (np_random_uniform R low high (rng v));
  pass_explore_x : explore_x v' = explore_x v ++ [x v'];
  pass_explore_y : explore_y v' = explore_y v ++ [y v'];
  pass_Dx_hist : Dx_hist v' = Dx_hist v ++ [Dx v'];
  pass_Dy_hist : Dy_hist v' = Dy_hist v ++ [Dy v'];
  pass_theta_hist : theta_hist v' = theta_hist v ++ [theta v']
}.

(** The state reached after [k] passes. *)
Record reached (g : rng_state R) (k : nat) (v : Vars R) : Prop := {
  len_explore_x : length (explore_x v) = S k;
  len_explore_y : length (explore_y v) = S k;
  len_Dx_hist : length (Dx_hist v) = S k;
  len_Dy_hist : length (Dy_hist v) = S k;
  len_theta_hist : length (theta_hist v) = S k;
  same_x : Dx v = x v;
  same_y : Dy v = y v;
  same_x_hist : Dx_hist v = explore_x v;
  same_y_hist : Dy_hist v = explore_y v;
  draws_so_far : rng v = rng_after R k g
}.

End Passes.

(** The variables of the exploration, without the generator. *)
Definition visible {R : RandomSource} (v : Vars R) :=
  (x v, y v, Dx v, Dy v, theta v,
   explore_x v, explore_y v, Dx_hist v, Dy_hist v, theta_hist v).

(** The heading, its history and the generator: what the turning and the
    scanning read and write. *)
Definition heading_part {R : RandomSource} (v : Vars R) :=
  (theta v, theta_hist v, rng v).

Definition result_map {A B : Type} (f : A -> B) (r : result A) : result B :=
  match r with
  | Ok a => Ok (f a)
  | Raise e => Raise e
  end.

(** ** Concrete collaborators for the worked examples *)

Module Examples.

Local Open Scope float_scope.

(** The elementary functions at the arguments the examples reach: the
    results Annex F of the C standard fixes at zero arguments, the
    correctly rounded [cos] and [sin] of [np.pi] and of [0.5], and
    [a ** 2] as the correctly rounded square.  Any other argument gives NaN, and no
    example reads such a result. *)
Definition ref_cos (a : float) : float :=
  if is_zero a then 1
  else if Leibniz.eqb a F64.pi then -1
  else if Leibniz.eqb a 0.5 then 0x1.c1528065b7d5p-1
  else nan.

Definition ref_sin (a : float) : float :=
  if is_zero a then a
  else if Leibniz.eqb a F64.pi then 0x1.1a62633145c07p-53
  else if Leibniz.eqb a 0.5 then 0x1.eaee8744b05fp-2
  else nan.

Definition ref_arctan2 (b a : float) : float :=
  if is_zero b then
    if is_nan a then nan
    else if get_sign a then (if get_sign b then - F64.pi else F64.pi)
    else b
  else nan.

Definition ref_pow (a b : float) : float :=
  if Leibniz.eqb b 2 then a * a else nan.

Definition ref_math : MathLib := {|
  np_cos := ref_cos;
  np_sin := ref_sin;
  np_arctan2 := ref_arctan2;
  float_pow := ref_pow
|}.

(** A random source that replays prescribed perturbations, whatever the
    seed; once they are used up it keeps answering [low]. *)
Definition replay (deltas : list float) : RandomSource := {|
  rng_state := list float;
  np_random_seed := fun _ => deltas;
  np_random_uniform := fun lo _ g =>
    match g with
    | [] => (lo, [])
    | d :: g' => (d, g')
    end
|}.

(** The scenario of the specification: three steps of length 0.5 with
    zero perturbation. *)
Definition scenario : Config := {|
  seed := 1;
  step_length := 0.5;
  num_explore_steps := 3;
  scan_interval := 10;
  scan_gain := 0x1.999999999999ap-4;
  sun_direction := 0
|}.

Definition zero_draws : list float := [0; 0; 0].

(** What the scenario leaves behind. *)
Definition scenario_explored : Vars (replay zero_draws) := {|
  x := 1.5; y := 0;
  Dx := 1.5; Dy := 0;
  theta := 0;
  explore_x := [0; 0.5; 1; 1.5];
  explore_y := [0; 0; 0; 0];
  Dx_hist := [0; 0.5; 1; 1.5];
  Dy_hist := [0; 0; 0; 0];
  theta_hist := [0; 0; 0; 0];
  rng := ([] : rng_state (replay zero_draws))
|}.

Definition scenario_run : Run (replay zero_draws) := {|
  explored := scenario_explored;
  R_mag := 1.5;
  R_angle := 0;
  home_angle := F64.pi;
  num_home_steps := 3;
  homing := {|
    food_x := 0;
    food_y := 0x1.a79394c9e8a0ap-53;
    home_x := [1.5; 1; 0.5; 0];
    home_y := [0; 0x1.1a62633145c07p-54; 0x1.1a62633145c07p-53;
               0x1.a79394c9e8a0ap-53]
  |}
|}.

(** The scenario without any exploration step. *)
Definition no_step : Config := {|
  seed := 1;
  step_length := 0.5;
  num_explore_steps := 0;
  scan_interval := 10;
  scan_gain := 0x1.999999999999ap-4;
  sun_direction := 0
|}.

(** [np.random.uniform(low, high)] computes [low + (high - low) * u] from
    the next number [u] of the generator, which lies in [[0, 1)]; this
    source replays prescribed [u]s. *)
Definition scaled (units : list float) : RandomSource := {|
  rng_state := list float;
  np_random_seed := fun _ => units;
  np_random_uniform := fun lo hi g =>
    match g with
    | [] => (lo, [])
    | u :: g' => (lo + (hi - lo) * u, g')
    end
|}.

(** The first two numbers of NumPy's generator (MT19937) after
    [np.random.seed(1)]: 0.417022004702574 and 0.7203244934421581. *)
Definition seed1_units : list float :=
  [0x1.ab07d0ffa3c06p-2; 0x1.70ce5f3baf051p-1].

(** The script's parameters with gain [1.0] toward the reference [0.05],
    two passes, scanning at every pass. *)
Definition turn_config : Config := {|
  seed := 1;
  step_length := 0.5;
  num_explore_steps := 2;
  scan_interval := 1;
  scan_gain := 1;
  sun_direction := 0x1.999999999999ap-5
|}.

(** The script's parameters with gain [1.0] toward the reference [0.05],
    one pass. *)
Definition first_config : Config := {|
  seed := 1;
  step_length := 0.5;
  num_explore_steps := 1;
  scan_interval := 10;
  scan_gain := 1;
  sun_direction := 0x1.999999999999ap-5
|}.

(** Gain [0.0] and a reference that is not a number of radians. *)
Definition lost_config : Config := {|
  seed := 1;
  step_length := 0.5;
  num_explore_steps := 1;
  scan_interval := 1;
  scan_gain := 0;
  sun_direction := infinity
|}.

(** The scenario with one parameter outside its documented range. *)
Definition negative_interval : Config := {|
  seed := 1;
  step_length := 0.5;
  num_explore_steps := 3;
  scan_interval := -1;
  scan_gain := 0x1.999999999999ap-4;
  sun_direction := 0
|}.

Definition negative_length : Config := {|
  seed := 1;
  step_length := -0.5;
  num_explore_steps := 3;
  scan_interval := 10;
  scan_gain := 0x1.999999999999ap-4;
  sun_direction := 0
|}.

Definition negative_count : Config := {|
  seed := 1;
  step_length := 0.5;
  num_explore_steps := -1;
  scan_interval := 10;
  scan_gain := 0x1.999999999999ap-4;
  sun_direction := 0
|}.

Definition scenario_observation : Observation := {|
  obs_explore_x := [0; 0.5; 1; 1.5];
  obs_explore_y := [0; 0; 0; 0];
  obs_Dx_hist := [0; 0.5; 1; 1.5];
  obs_Dy_hist := [0; 0; 0; 0];
  obs_theta_hist := [0; 0; 0; 0];
  obs_home_x := [1.5; 1; 0.5; 0];
  obs_home_y := [0; 0x1.1a62633145c07p-54; 0x1.1a62633145c07p-53;
                 0x1.a79394c9e8a0ap-53];
  obs_R_mag := 1.5;
  obs_home_angle := F64.pi
|}.

Definition backward_observation : Observation := {|
  obs_explore_x := [0; -0.5; -1; -1.5];
  obs_explore_y := [0; 0; 0; 0];
  obs_Dx_hist := [0; -0.5; -1; -1.5];
  obs_Dy_hist := [0; 0; 0; 0];
  obs_theta_hist := [0; 0; 0; 0];
  obs_home_x := [-1.5];
  obs_home_y := [0];
  obs_R_mag := 1.5;
  obs_home_angle := 0x1.921fb54442d18p+2
|}.

Definition origin_observation : Observation := {|
  obs_explore_x := [0];
  obs_explore_y := [0];
  obs_Dx_hist := [0];
  obs_Dy_hist := [0];
  obs_theta_hist := [0];
  obs_home_x := [0];
  obs_home_y := [0];
  obs_R_mag := 0;
  obs_home_angle := F64.pi
|}.

End Examples.

(** ** What the script shows (lines 153-283)

    Matplotlib is outside the script.  The model keeps what the script
    hands to it: the data of each line, of the dot and of the arrow, and
    the numbers a text is formatted from.  [artist.remove()] is modelled
    as leaving no arrow; the strings the numbers are formatted into are
    not modelled. *)

(** In the plotting code the only exception is IndexError, modelled by
    [None]. *)
Definition and_then {A B : Type} (o : option A) (k : A -> option B)
  : option B :=
  match o with
  | Some a => k a
  | None => None
  end.

Notation "v <~ o ;; k" := (and_then o (fun v => k))
  (at level 61, o at next level, right associativity).

(** [l[i]]: a negative index counts from the end; an index outside
    [-len(l) .. len(l) - 1] raises IndexError. *)
Definition py_index {A : Type} (l : list A) (i : Z) : option A :=
  if 0 <=? i then nth_error l (Z.to_nat i)
  else if - Z.of_nat (length l) <=? i
       then nth_error l (Z.to_nat (Z.of_nat (length l) + i))
       else None.

(** [l[:k]]: a negative bound counts from the end; no bound raises. *)
Definition py_prefix {A : Type} (l : list A) (k : Z) : list A :=
  if 0 <=? k then firstn (Z.to_nat k) l
  else firstn (Z.to_nat (Z.of_nat (length l) + k)) l.

(** [ax.arrow(x, y, dx, dy)] *)
Record Arrow : Type := {
  arrow_x : float;
  arrow_y : float;
  arrow_dx : float;
  arrow_dy : float
}.

(** The numbers [info_text] is formatted from. *)
Inductive Text : Type :=
| Blank
| ExplorationPhase (px py rx ry rm theta_degrees : float)
| ReturningPhase (r_mag r_angle_degrees : float).

(** The artists [update] changes. *)
Record Figure : Type := {
  line_explore : list float * list float;
  line_home : list float * list float;
  ant_dot : list float * list float;
  vector_arrow : option Arrow;
  info_text : Text
}.

(** The figure as lines 196-215 set it up. *)
Definition initial_figure : Figure := {|
  line_explore := ([], []);
  line_home := ([], []);
  ant_dot := ([], []);
  vector_arrow :=
    Some {| arrow_x := 0%float; arrow_y := 0%float;
            arrow_dx := 0%float; arrow_dy := 0%float |};
  info_text := Blank
|}.

(** What the static summary plot draws (lines 156-169). *)
Record SummaryPlot : Type := {
  exploration_path : list float * list float;
  returning_path : list float * list float;
  resultant : Arrow;
  nest_marker : float * float;
  food_marker : float * float
}.

Section Display.

Variable M : MathLib.
Variable R : RandomSource.

(** [np.degrees] *)
Variable np_degrees : float -> float.

Definition summary_plot (r : Run R) : option SummaryPlot :=
  let v := explored r in
  fx <~ py_index (explore_x v) (-1) ;;
  fy <~ py_index (explore_y v) (-1) ;;
  Some {| exploration_path := (explore_x v, explore_y v);
          returning_path := (home_x (homing r), home_y (homing r));
          resultant := {| arrow_x := 0%float; arrow_y := 0%float;
                          arrow_dx := Dx v; arrow_dy := Dy v |};
          nest_marker := (0%float, 0%float);
          food_marker := (fx, fy) |}.

(** [frames], the number of frames of the animation (line 280). *)
Definition frames (r : Run R) : Z :=
  Z.of_nat (length (explore_x (explored r))) +
  Z.of_nat (length (home_x (homing r))).

(** [update(frame)] (lines 221-275). *)
Definition update (r : Run R) (frame : Z) (fig : Figure) : option Figure :=
  let v := explored r in
  let h := homing r in
  if frame <? Z.of_nat (length (explore_x v)) then
    let trail := (py_prefix (explore_x v) frame,
                  py_prefix (explore_y v) frame) in
    px <~ py_index (explore_x v) frame ;;
    py <~ py_index (explore_y v) frame ;;
    Rx <~ py_index (Dx_hist v) frame ;;
    Ry <~ py_index (Dy_hist v) frame ;;
    let Rm := sqrt (float_pow M Rx 2 + float_pow M Ry 2)%float in
    th <~ py_index (theta_hist v) frame ;;
    Some {| line_explore := trail;
            line_home := line_home fig;
            ant_dot := ([px], [py]);
            vector_arrow :=
              Some {| arrow_x := 0%float; arrow_y := 0%float;
                      arrow_dx := Rx; arrow_dy := Ry |};
            info_text := ExplorationPhase px py Rx Ry Rm (np_degrees th) |}
  else
    let f := frame - Z.of_nat (length (explore_x v)) in
    if f <? Z.of_nat (length (home_x h)) then
      let trail := (py_prefix (home_x h) f, py_prefix (home_y h) f) in
      hx <~ py_index (home_x h) f ;;
      hy <~ py_index (home_y h) f ;;
      Some {| line_explore := line_explore fig;
              line_home := trail;
              ant_dot := ([hx], [hy]);
              vector_arrow :=
                Some {| arrow_x := 0%float; arrow_y := 0%float;
                        arrow_dx := Dx v; arrow_dy := Dy v |};
              info_text := ReturningPhase (R_mag r) (np_degrees (R_angle r)) |}
    else
      Some {| line_explore := line_explore fig;
              line_home := line_home fig;
              ant_dot := ant_dot fig;
              vector_arrow := None;
              info_text := info_text fig |}.

(** [update] called on the given frames in turn. *)
Fixpoint play (r : Run R) (fs : list Z) (fig : Figure) : option Figure :=
  match fs with
  | [] => Some fig
  | frame :: rest => fig' <~ update r frame fig ;; play r rest fig'
  end.

(** The animation: every frame of [range(frames)], in order, from the
    figure as it was set up (lines 277-285). *)
Definition animation (r : Run R) : option Figure :=
  play r (range (frames r)) initial_figure.

End Display.

(** *** The axis limits of the animation (lines 185-191) *)

(** [min(l)]: the first element, replaced by each later one that compares
    below the one kept; ValueError ([None]) on an empty list. *)
Definition py_min (l : list float) : option float :=
  match l with
  | [] => None
  | a :: rest =>
      Some (fold_left (fun kept item => if (item <? kept)%float then item
                                        else kept) rest a)
  end.

(** [max(l)], alike with [item > kept]. *)
Definition py_max (l : list float) : option float :=
  match l with
  | [] => None
  | a :: rest =>
      Some (fold_left (fun kept item => if (kept <? item)%float then item
                                        else kept) rest a)
  end.

Definition margin : float := 2%float.

(** The arguments of [ax.set_xlim] and of [ax.set_ylim]. *)
Definition axis_limits {R : RandomSource} (r : Run R)
  : option ((float * float) * (float * float)) :=
  let all_x := explore_x (explored r) ++ home_x (homing r) in
  let all_y := explore_y (explored r) ++ home_y (homing r) in
  lo_x <~ py_min all_x ;;
  hi_x <~ py_max all_x ;;
  lo_y <~ py_min all_y ;;
  hi_y <~ py_max all_y ;;
  Some ((lo_x - margin, hi_x + margin)%float,
        (lo_y - margin, hi_y + margin)%float).

(** The order of binary64 comparisons without NaN, read as an order on
    triples of integers: the class (negative infinity, negative, zero,
    positive, positive infinity), then exponent and mantissa, both negated
    for the negative numbers. *)
Definition sf_rank (f : spec_float) : Z * Z * Z :=
  match f with
  | S754_infinity true => (-2, 0, 0)
  | S754_finite true m e => (-1, - e, - Z.pos m)
  | S754_zero _ | S754_nan => (0, 0, 0)
  | S754_finite false m e => (1, e, Z.pos m)
  | S754_infinity false => (2, 0, 0)
  end.

Definition lex_le (a b : Z * Z * Z) : Prop :=
  let '(a1, a2, a3) := a in
  let '(b1, b2, b3) := b in
  a1 < b1 \/ (a1 = b1 /\ (a2 < b2 \/ (a2 = b2 /\ a3 <= b3))).

Definition sf_number (f : spec_float) : Prop :=
  match f with
  | S754_nan => False
  | _ => True
  end.

(** [np.degrees] for the worked examples: the product with
    [180 / np.pi]. *)
Definition ref_degrees (a : float) : float := (a * (180 / F64.pi))%float.

(** ** Facts of binary64 arithmetic

    Each is read off the specification of the primitive operation
    ([Prim2SF] maps a primitive float to the sign, mantissa and exponent
    the specification computes on). *)

Module F64Facts.

Import F64.
Local Open Scope float_scope.

Lemma Prim2SF_zero : Prim2SF 0 = S754_zero false.
Proof. reflexivity. Qed.

Lemma Prim2SF_one : Prim2SF 1 = S754_finite false 4503599627370496 (-52).
Proof. reflexivity. Qed.

(** Subtracting [0.0] changes nothing, not even the sign of a zero. *)
Lemma sub_0_r (a : float) : a - 0 = a.
Proof.
  apply Prim2SF_inj; rewrite sub_spec, Prim2SF_zero.
  destruct (Prim2SF a) as [[|]|[|]| |s m e]; reflexivity.
Qed.

Lemma sub_diag (a : float) : finite a = true -> a - a = 0.
Proof.
  unfold finite; intros Hf.
  apply Prim2SF_inj; rewrite sub_spec, Prim2SF_zero.
  destruct (Prim2SF a) as [[|]|s| |s m e]; try discriminate; try reflexivity.
  unfold SF64sub, SFsub, shl_align.
  match goal with
  | |- binary_normalize _ _ (?d - ?d)%Z _ _ = _ =>
      replace (d - d)%Z with 0%Z by (symmetry; apply Z.sub_diag)
  end.
  reflexivity.
Qed.

Lemma finite_sub_l (a b : float) : finite (a - b) = true -> finite a = true.
Proof.
  unfold finite; rewrite sub_spec.
  destruct (Prim2SF a) as [s|s| |s m e]; try reflexivity;
    destruct (Prim2SF b) as [s'|s'| |s' m' e']; try discriminate;
    destruct s, s'; discriminate.
Qed.

(** A mantissa that already fits is left alone by the rounding shift. *)
Lemma shr_fexp_canonical (m : positive) (e : Z) :
  fexp prec emax (Z.pos (digits2_pos m) + e) = e ->
  shr_fexp prec emax (Z.pos m) e loc_Exact =
  ({| shr_m := Z.pos m; shr_r := false; shr_s := false |}, e).
Proof.
  intros Hc; unfold shr_fexp; cbn [Zdigits2 shr_record_of_loc].
  rewrite Hc, Z.sub_diag; reflexivity.
Qed.

(** The product of the mantissa of [1.0] with a mantissa that fits is
    shifted back to that mantissa, with nothing lost. *)
Lemma shr_fexp_one_times (m : positive) (e : Z) :
  fexp prec emax (Z.pos (digits2_pos m) + e) = e ->
  shr_fexp prec emax (Z.pos (4503599627370496 * m)) (-52 + e) loc_Exact =
  ({| shr_m := Z.pos m; shr_r := false; shr_s := false |}, e).
Proof.
  intros Hc; unfold shr_fexp.
  cbn [Pos.mul Zdigits2 digits2_pos shr_record_of_loc].
  rewrite !Pos2Z.inj_succ.
  match goal with
  | |- context [fexp prec emax ?a] =>
      replace a with (Z.pos (digits2_pos m) + e)%Z by lia
  end.
  rewrite Hc.
  replace (e - (-52 + e))%Z with 52%Z by lia.
  unfold shr; cbn [iter_pos shr_1 orb].
  f_equal; lia.
Qed.

(** Multiplying by [1.0] is exact. *)
Lemma mul_1_l (a : float) : 1 * a = a.
Proof.
  apply Prim2SF_inj; rewrite mul_spec, Prim2SF_one.
  pose proof (Prim2SF_valid a) as Hv.
  destruct (Prim2SF a) as [s|s| |s m e]; try reflexivity.
  unfold SF64mul, SFmul; cbn [xorb].
  unfold valid_binary, bounded, canonical_mantissa in Hv.
  apply andb_prop in Hv; destruct Hv as [Hc Hb].
  apply Z.eqb_eq in Hc.
  unfold binary_round_aux.
  rewrite (shr_fexp_one_times m e Hc).
  cbn [shr_m loc_of_shr_record round_nearest_even].
  rewrite (shr_fexp_canonical m e Hc).
  cbn [shr_m]; rewrite Hb; reflexivity.
Qed.

Lemma SFeqb_refl_finite (f : spec_float) :
  match f with S754_zero _ | S754_finite _ _ _ => True | _ => False end ->
  SFeqb f f = true.
Proof.
  destruct f as [s|s| |s m e]; try contradiction; intros _; [reflexivity|].
  unfold SFeqb, SFcompare.
  destruct s; rewrite Z.compare_refl, Pos.compare_cont_refl; reflexivity.
Qed.

(** A correction of gain [0.0] leaves the heading as it compares with
    [==], provided the deviation from the reference is a number. *)
Lemma zero_gain_correction (t r : float) :
  finite (t - r) = true -> (t - 0 * (t - r) =? t) = true.
Proof.
  intros Hd; pose proof (finite_sub_l _ _ Hd) as Ht.
  rewrite FloatAxioms.eqb_spec, sub_spec, mul_spec, Prim2SF_zero.
  unfold finite in Hd, Ht.
  destruct (Prim2SF (t - r)) as [sd|sd| |sd md ed]; try discriminate;
    destruct (Prim2SF t) as [[|]|s| |s m e]; try discriminate;
    cbn [SF64mul SFmul SF64sub SFsub xorb];
    try (destruct sd; reflexivity);
    apply SFeqb_refl_finite; exact I.
Qed.

(** The sign of what the operations return. *)
Lemma binary_round_aux_nonneg (m e : Z) (l : location) :
  sf_nonneg (binary_round_aux prec emax false m e l) = true.
Proof.
  unfold binary_round_aux.
  destruct (shr_fexp prec emax m e l) as [mrs' e'].
  destruct (shr_fexp _ _ _ _ _) as [mrs'' e''].
  destruct (shr_m mrs''); try reflexivity.
  destruct (e'' <=? emax - prec)%Z; reflexivity.
Qed.

Lemma sqrt_nonneg (a : float) : nonneg (sqrt a) = true.
Proof.
  unfold nonneg; rewrite sqrt_spec; unfold SF64sqrt, SFsqrt.
  destruct (Prim2SF a) as [s|[|]| |[|] m e]; try reflexivity.
  destruct (SFsqrt_core_binary prec emax (Z.pos m) e) as [[mz ez] lz].
  apply binary_round_aux_nonneg.
Qed.

Lemma div_pos_nonneg (a b : float) :
  nonneg a = true -> (0 <? b) = true -> nonneg (a / b) = true.
Proof.
  unfold nonneg.
  rewrite FloatAxioms.ltb_spec, div_spec, Prim2SF_zero; unfold SFltb, SF64div, SFdiv.
  destruct (Prim2SF b) as [s'|[|]| |[|] m' e']; try discriminate;
    destruct (Prim2SF a) as [s|[|]| |[|] m e]; try discriminate;
    try reflexivity; intros _ _; cbn [xorb].
  destruct (SFdiv_core_binary _ _ _ _ _ _) as [[mz ez] lz].
  apply binary_round_aux_nonneg.
Qed.

Lemma Ok_inj {A : Type} (a b : A) : Ok a = Ok b -> a = b.
Proof. intros H; congruence. Qed.

(** [int()] of a float that is not negative is not negative. *)
Lemma py_int_nonneg (a : float) (n : Z) :
  nonneg a = true -> py_int a = Ok n -> (0 <= n)%Z.
Proof.
  unfold nonneg, py_int.
  destruct (Prim2SF a) as [s|s| |s m e]; try discriminate.
  - intros _ H; apply Ok_inj in H; lia.
  - destruct s; [discriminate|]; intros _ H; apply Ok_inj in H.
    unfold cond_Zopp in H; subst n; destruct (0 <=? e)%Z eqn:He.
    + apply Z.leb_le in He; apply Z.mul_nonneg_nonneg; [lia|].
      apply Z.pow_nonneg; lia.
    + apply Z.leb_gt in He; apply Z.div_pos; [lia|].
      apply Z.pow_pos_nonneg; lia.
Qed.

(** On such a float [int()] is the floor of the number it stands for. *)
Lemma py_int_floor (a : float) (n : Z) :
  nonneg a = true -> py_int a = Ok n ->
  exists q, to_Q a = Some q /\ n = Qfloor q.
Proof.
  unfold nonneg, py_int, to_Q.
  destruct (Prim2SF a) as [s|s| |s m e]; try discriminate.
  - intros _ H; apply Ok_inj in H; exists 0%Q; split; [reflexivity|].
    subst n; reflexivity.
  - destruct s; [discriminate|]; intros _ H; apply Ok_inj in H.
    unfold cond_Zopp in *; subst n; destruct (0 <=? e)%Z eqn:He.
    + eexists; split; [reflexivity|]; rewrite Qfloor_Z; reflexivity.
    + eexists; split; [reflexivity|]; unfold Qfloor.
      apply Z.leb_gt in He.
      rewrite Z2Pos.id by (apply Z.pow_pos_nonneg; lia); reflexivity.
Qed.

(** Zero over a positive float is a zero, which [int()] maps to 0. *)
Lemma py_int_zero_div (b : float) : (0 <? b) = true -> py_int (0 / b) = Ok 0%Z.
Proof.
  unfold py_int.
  rewrite FloatAxioms.ltb_spec, div_spec, Prim2SF_zero.
  unfold SFltb, SF64div, SFdiv.
  destruct (Prim2SF b) as [s'|[|]| |[|] m' e']; try discriminate;
    reflexivity.
Qed.

(** Nothing that is not negative, divided by a zero, converts with
    [int()]. *)
Lemma py_int_div_zero (a b : float) :
  nonneg a = true -> (b =? 0) = true ->
  py_int (a / b) = Raise ValueError \/ py_int (a / b) = Raise OverflowError.
Proof.
  unfold nonneg, py_int.
  rewrite FloatAxioms.eqb_spec, div_spec, Prim2SF_zero.
  unfold SFeqb, SF64div, SFdiv.
  destruct (Prim2SF b) as [s'|[|]| |[|] m' e']; try discriminate;
    destruct (Prim2SF a) as [s|[|]| |[|] m e]; try discriminate; auto.
Qed.

(** No quotient by a zero is a number. *)
Lemma div_zero_not_finite (a b : float) :
  (b =? 0) = true -> finite (a / b) = false.
Proof.
  unfold finite.
  rewrite FloatAxioms.eqb_spec, div_spec, Prim2SF_zero.
  unfold SFeqb, SF64div, SFdiv.
  destruct (Prim2SF b) as [s'|[|]| |[|] m' e']; try discriminate;
    destruct (Prim2SF a) as [s|[|]| |[|] m e]; reflexivity.
Qed.

(** [int()] fails exactly on NaN and the infinities. *)
Lemma py_int_finite (a : float) :
  finite a = true -> exists n, py_int a = Ok n.
Proof.
  unfold finite, py_int.
  destruct (Prim2SF a) as [s|s| |s m e]; try discriminate; eauto.
Qed.

Lemma py_int_not_finite (a : float) :
  finite a = false ->
  py_int a = Raise ValueError \/ py_int a = Raise OverflowError.
Proof.
  unfold finite, py_int.
  destruct (Prim2SF a) as [s|s| |s m e]; try discriminate; auto.
Qed.

End F64Facts.

(** ** The loop combinators *)

Lemma for_loop_app {A S : Type} (l1 l2 : list A) (body : A -> S -> result S)
  (s : S) :
  for_loop (l1 ++ l2) body s = (s' <- for_loop l1 body s ;; for_loop l2 body s').
Proof.
  revert s; induction l1 as [|a l1 IH]; intros s; simpl; [reflexivity|].
  destruct (body a s) as [s'|e]; simpl; [apply IH | reflexivity].
Qed.

Lemma range_nonpos (n : Z) : n <= 0 -> range n = [].
Proof.
  intros Hn; unfold range.
  replace (Z.to_nat n) with 0%nat by lia; reflexivity.
Qed.

Lemma range_succ (k : nat) :
  range (Z.of_nat (S k)) = range (Z.of_nat k) ++ [Z.of_nat k].
Proof.
  unfold range; rewrite !Nat2Z.id, seq_S, map_app; reflexivity.
Qed.

Lemma range_length (n : Z) : length (range n) = Z.to_nat n.
Proof. unfold range; rewrite length_map, length_seq; reflexivity. Qed.

Lemma bind_Ok {A B : Type} (r : result A) (k : A -> result B) (b : B) :
  (a <- r ;; k a) = Ok b -> exists a, r = Ok a /\ k a = Ok b.
Proof. destruct r as [a|e]; simpl; [eauto | discriminate]. Qed.

Lemma nth_error_snoc_last {A : Type} (l : list A) (a : A) (k : nat) :
  length l = k -> nth_error (l ++ [a]) k = Some a.
Proof.
  intros <-; rewrite nth_error_app2, Nat.sub_diag by lia; reflexivity.
Qed.

Lemma nth_error_snoc_old {A : Type} (l : list A) (a : A) (k : nat) :
  (k < length l)%nat -> nth_error (l ++ [a]) k = nth_error l k.
Proof. intros Hk; apply nth_error_app1; exact Hk. Qed.

(** ** The exploration loop, pass by pass *)

Section Exploration.

Variable M : MathLib.
Variable R : RandomSource.

Local Open Scope float_scope.

Lemma explore_upto_all (c : Config) (g : rng_state R) :
  explore M R c g = explore_upto M R c g (Z.to_nat (num_explore_steps c)).
Proof.
  unfold explore, explore_upto, range; rewrite Nat2Z.id; reflexivity.
Qed.

Lemma explore_upto_S (c : Config) (g : rng_state R) (k : nat) :
  explore_upto M R c g (S k) =
  (v <- explore_upto M R c g k ;; explore_body M R c (Z.of_nat k) v).
Proof.
  unfold explore_upto; rewrite range_succ, for_loop_app.
  destruct (for_loop _ _ _) as [v|e]; simpl; [|reflexivity].
  destruct (explore_body M R c (Z.of_nat k) v); reflexivity.
Qed.

Lemma explore_body_pass (c : Config) (step : Z) (v v' : Vars R) :
  explore_body M R c step v = Ok v' -> pass M R c step v v'.
Proof.
  unfold explore_body.
  destruct (np_random_uniform R low high (rng v)) as [delta g'] eqn:Hd.
  intros H; apply bind_Ok in H; destruct H as (r & Hr & H).
  injection H as <-; constructor; simpl; rewrite ?Hd; try reflexivity.
  exists r; split; [exact Hr | reflexivity].
Qed.

(** A pass fails only on the modulo, and then with ZeroDivisionError. *)
Lemma explore_body_Raise (c : Config) (step : Z) (v : Vars R) (e : exn) :
  explore_body M R c step v = Raise e ->
  scan_interval c = 0%Z /\ e = ZeroDivisionError.
Proof.
  unfold explore_body, py_mod.
  destruct (np_random_uniform R low high (rng v)) as [delta g'].
  destruct (Z.eqb_spec (scan_interval c) 0) as [H0|H0]; simpl.
  - intros H; injection H as <-; auto.
  - discriminate.
Qed.

Lemma explore_body_Ok (c : Config) (step : Z) (v : Vars R) :
  scan_interval c <> 0%Z -> exists v', explore_body M R c step v = Ok v'.
Proof.
  intros H0; destruct (explore_body M R c step v) as [v'|e] eqn:Hb;
    [eauto|].
  apply explore_body_Raise in Hb; tauto.
Qed.

Lemma explore_upto_reached (c : Config) (g : rng_state R) (k : nat) :
  forall v, explore_upto M R c g k = Ok v -> reached R g k v.
Proof.
  induction k as [|k IH]; intros v H.
  - injection H as <-; constructor; reflexivity.
  - rewrite explore_upto_S in H; apply bind_Ok in H.
    destruct H as (u & Hu & Hb).
    specialize (IH u Hu); apply explore_body_pass in Hb.
    destruct IH, Hb; constructor.
    1-5: match goal with
         | H : ?h ?a = ?h _ ++ _ |- length (?h ?a) = _ =>
             rewrite H, length_app; simpl; lia
         end.
    + congruence.
    + congruence.
    + congruence.
    + congruence.
    + simpl; congruence.
Qed.

(** Earlier passes succeeded, and what they recorded is still there. *)
Lemma explore_upto_history (c : Config) (g : rng_state R) (n : nat) :
  forall v, explore_upto M R c g n = Ok v ->
  forall k, (k <= n)%nat ->
  exists u, explore_upto M R c g k = Ok u /\
    nth_error (explore_x v) k = Some (x u) /\
    nth_error (explore_y v) k = Some (y u) /\
    nth_error (Dx_hist v) k = Some (Dx u) /\
    nth_error (Dy_hist v) k = Some (Dy u) /\
    nth_error (theta_hist v) k = Some (theta u).
Proof.
  induction n as [|n IH]; intros v H k Hk.
  - replace k with 0%nat by lia; exists v; split; [exact H|].
    injection H as <-; repeat split; reflexivity.
  - pose proof H as H'.
    rewrite explore_upto_S in H'; apply bind_Ok in H'.
    destruct H' as (w & Hw & Hb).
    pose proof (explore_upto_reached _ _ _ _ Hw) as Rw.
    apply explore_body_pass in Hb; destruct Hb, Rw.
    destruct (Nat.eq_dec k (S n)) as [->|Hne].
    + exists v; split; [exact H|].
      repeat split;
        match goal with
        | Hh : ?h ?a = ?h _ ++ _ |- nth_error (?h ?a) _ = _ =>
            rewrite Hh; apply nth_error_snoc_last; assumption
        end.
    + destruct (IH w Hw k ltac:(lia)) as (u & Hu & Hx & Hy & HDx & HDy & Ht).
      exists u; split; [exact Hu|].
      repeat split;
        match goal with
        | Hh : ?h ?a = ?h _ ++ _ |- nth_error (?h ?a) _ = _ =>
            rewrite Hh, nth_error_snoc_old by lia; assumption
        end.
Qed.

End Exploration.

(** ** The way home, step by step *)

Section Return.

Variable M : MathLib.
Variable R : RandomSource.

Local Open Scope float_scope.

Lemma straight_length (p d : float) (n : nat) : length (straight p d n) = n.
Proof.
  revert p; induction n as [|n IH]; intros p; simpl; [|rewrite IH];
    reflexivity.
Qed.

Lemma straight_step (d : float) (n : nat) :
  forall p j, (j < n)%nat ->
  exists q, nth_error (p :: straight p d n) j = Some q /\
            nth_error (p :: straight p d n) (S j) = Some (q + d).
Proof.
  induction n as [|n IH]; intros p j Hj; [lia|].
  destruct j as [|j].
  - exists p; split; reflexivity.
  - destruct (IH (p + d) j ltac:(lia)) as (q & Hq & Hq').
    exists q; split; [exact Hq | exact Hq'].
Qed.

(** The return loop never fails, and appends a straight walk. *)
Lemma home_loop (c : Config) (a : float) (l : list Z) :
  forall h, exists h',
    for_loop l (home_body M c a) h = Ok h' /\
    home_x h' =
      home_x h ++ straight (food_x h) (step_length c * np_cos M a) (length l) /\
    home_y h' =
      home_y h ++ straight (food_y h) (step_length c * np_sin M a) (length l).
Proof.
  induction l as [|i l IH]; intros h.
  - exists h; simpl; rewrite !app_nil_r; auto.
  - simpl for_loop; unfold home_body at 1; simpl bind.
    match goal with
    | |- context [for_loop l _ ?h1] => destruct (IH h1) as (h' & Hl & Hx & Hy)
    end.
    exists h'; split; [exact Hl|].
    rewrite Hx, Hy; simpl; rewrite <- !app_assoc; split; reflexivity.
Qed.

(** What a completed run holds. *)
Lemma go_home_Ok (c : Config) (v : Vars R) (r : Run R) :
  go_home M R c v = Ok r ->
  explored r = v /\
  R_mag r = sqrt (float_pow M (Dx v) 2 + float_pow M (Dy v) 2) /\
  R_angle r = np_arctan2 M (Dy v) (Dx v) /\
  home_angle r = R_angle r + F64.pi /\
  F64.py_int (R_mag r / step_length c) = Ok (num_home_steps r) /\
  home_x (homing r) =
    x v :: straight (x v) (step_length c * np_cos M (home_angle r))
             (Z.to_nat (num_home_steps r)) /\
  home_y (homing r) =
    y v :: straight (y v) (step_length c * np_sin M (home_angle r))
             (Z.to_nat (num_home_steps r)).
Proof.
  unfold go_home; intros H.
  apply bind_Ok in H; destruct H as (n & Hn & H).
  match type of H with
  | context [for_loop (range n) (home_body M c ?a) ?h0] =>
      destruct (home_loop c a (range n) h0) as (h & Hl & Hx & Hy)
  end.
  rewrite Hl in H; simpl in H; apply F64Facts.Ok_inj in H; subst r; simpl.
  rewrite range_length in Hx, Hy.
  repeat split; try assumption.
Qed.

Lemma simulate_Ok (c : Config) (r : Run R) :
  simulate M R c = Ok r ->
  explore M R c (np_random_seed R (seed c)) = Ok (explored r) /\
  go_home M R c (explored r) = Ok r.
Proof.
  unfold simulate; intros H; apply bind_Ok in H.
  destruct H as (v & Hv & Hg).
  destruct (go_home_Ok c v r Hg) as (He & _); subst v; auto.
Qed.

End Return.

(** ** Properties of the exploration *)

Section ExplorationClaims.

Variable M : MathLib.
Variable R : RandomSource.

Local Open Scope float_scope.

(** With a scan interval other than zero no pass fails. *)
Lemma explore_upto_total (c : Config) (g : rng_state R) (k : nat) :
  scan_interval c <> 0%Z -> exists v, explore_upto M R c g k = Ok v.
Proof.
  intros H0; induction k as [|k [u Hu]]; [eexists; reflexivity|].
  rewrite explore_upto_S, Hu; simpl; apply explore_body_Ok; exact H0.
Qed.

(** Two consecutive entries of the histories are the variables before
    and after one pass. *)
Lemma explore_consecutive (c : Config) (g : rng_state R) (v : Vars R)
  (k : nat) :
  explore M R c g = Ok v ->
  (k < Z.to_nat (num_explore_steps c))%nat ->
  exists u u',
    reached R g k u /\ pass M R c (Z.of_nat k) u u' /\
    nth_error (explore_x v) k = Some (x u) /\
    nth_error (explore_y v) k = Some (y u) /\
    nth_error (Dx_hist v) k = Some (Dx u) /\
    nth_error (Dy_hist v) k = Some (Dy u) /\
    nth_error (theta_hist v) k = Some (theta u) /\
    nth_error (explore_x v) (S k) = Some (x u') /\
    nth_error (explore_y v) (S k) = Some (y u') /\
    nth_error (Dx_hist v) (S k) = Some (Dx u') /\
    nth_error (Dy_hist v) (S k) = Some (Dy u') /\
    nth_error (theta_hist v) (S k) = Some (theta u').
Proof.
  rewrite explore_upto_all; intros Hv Hk.
  destruct (explore_upto_history M R c g _ v Hv k ltac:(lia))
    as (u & Hu & Hx & Hy & HDx & HDy & Ht).
  destruct (explore_upto_history M R c g _ v Hv (S k) ltac:(lia))
    as (u' & Hu' & Hx' & Hy' & HDx' & HDy' & Ht').
  exists u, u'.
  split; [exact (explore_upto_reached M R c g k u Hu)|].
  split; [|tauto].
  rewrite explore_upto_S, Hu in Hu'; simpl in Hu'.
  apply explore_body_pass; exact Hu'.
Qed.

(** The heading recorded after pass [k]. *)
Lemma heading_after_pass (c : Config) (g : rng_state R) (v : Vars R)
  (k : nat) :
  explore M R c g = Ok v ->
  (k < Z.to_nat (num_explore_steps c))%nat ->
  exists th,
    nth_error (theta_hist v) k = Some th /\
    scan_interval c <> 0%Z /\
    nth_error (theta_hist v) (S k) =
      Some (if (Z.of_nat k mod scan_interval c =? 0)%Z
            then th + perturbation R g k -
                 scan_gain c * (th + perturbation R g k - sun_direction c)
            else th + perturbation R g k).
Proof.
  intros Hv Hk.
  destruct (explore_consecutive c g v k Hv Hk)
    as (u & u' & Ru & Pu & _ & _ & _ & _ & Ht & _ & _ & _ & _ & Ht').
  exists (theta u); split; [exact Ht|].
  destruct Pu as [(r & Hr & Hth) _ _ _ _ _ _ _ _ _ _], Ru.
  unfold perturbation; rewrite <- draws_so_far0; cbv zeta in Hth.
  unfold py_mod in Hr.
  destruct (Z.eqb_spec (scan_interval c) 0) as [H0|H0]; [discriminate|].
  apply F64Facts.Ok_inj in Hr; subst r.
  split; [exact H0|].
  rewrite Ht', Hth; reflexivity.
Qed.

(** What a correction of gain [1.0] computes. *)
Lemma unit_gain_correction (t r : float) :
  t - 1 * (t - r) = t - (t - r).
Proof. rewrite F64Facts.mul_1_l; reflexivity. Qed.

Lemma unit_gain_zero_reference (t : float) :
  F64.finite t = true -> t - 1 * (t - 0) = 0.
Proof.
  intros Hf; rewrite F64Facts.sub_0_r, F64Facts.mul_1_l.
  apply F64Facts.sub_diag; exact Hf.
Qed.

End ExplorationClaims.

(** The headings are computed without the elementary functions. *)
Section TwoLibraries.

Variables M1 M2 : MathLib.
Variable R : RandomSource.

Lemma explore_body_headings (c : Config) (step : Z) (v1 v2 : Vars R) :
  heading_part v1 = heading_part v2 ->
  result_map heading_part (explore_body M1 R c step v1) =
  result_map heading_part (explore_body M2 R c step v2).
Proof.
  unfold heading_part; intros H; injection H as Ht Hh Hg.
  unfold explore_body; rewrite Hg.
  destruct (np_random_uniform R low high (rng v2)) as [d g'].
  rewrite Ht, Hh.
  destruct (py_mod step (scan_interval c)) as [r|e]; reflexivity.
Qed.

Lemma explore_headings (c : Config) (g : rng_state R) :
  result_map (fun v => theta_hist v) (explore M1 R c g) =
  result_map (fun v => theta_hist v) (explore M2 R c g).
Proof.
  rewrite !explore_upto_all.
  assert (H : forall k,
             result_map heading_part (explore_upto M1 R c g k) =
             result_map heading_part (explore_upto M2 R c g k)).
  { induction k as [|k IH]; [reflexivity|].
    rewrite !explore_upto_S.
    destruct (explore_upto M1 R c g k) as [u1|e1];
      destruct (explore_upto M2 R c g k) as [u2|e2];
      simpl in IH; try discriminate; simpl bind; [|exact IH].
    apply explore_body_headings; congruence. }
  specialize (H (Z.to_nat (num_explore_steps c))).
  destruct (explore_upto M1 R c g _) as [u1|e1];
    destruct (explore_upto M2 R c g _) as [u2|e2];
    simpl in H |- *; try discriminate; [|congruence].
  unfold heading_part in H; congruence.
Qed.

End TwoLibraries.

(** C1. Path-integration identity: at every index [k] from 0 to the
    number of exploration steps, the recorded displacement estimate
    [(Dx_hist[k], Dy_hist[k])] is the recorded position
    [(explore_x[k], explore_y[k])] minus the initial position, which is
    the origin; the two records are the same numbers. *)
Theorem path_integration_identity (M : MathLib) (R : RandomSource)
  (c : Config) (g : rng_state R) (v : Vars R) (k : nat) :
  explore M R c g = Ok v ->
  (k <= Z.to_nat (num_explore_steps c))%nat ->
  exists x0 y0 px py,
    nth_error (explore_x v) 0 = Some x0 /\
    nth_error (explore_y v) 0 = Some y0 /\
    x0 = 0%float /\ y0 = 0%float /\
    nth_error (explore_x v) k = Some px /\
    nth_error (explore_y v) k = Some py /\
    nth_error (Dx_hist v) k = Some (px - x0)%float /\
    nth_error (Dy_hist v) k = Some (py - y0)%float /\
    nth_error (Dx_hist v) k = Some px /\
    nth_error (Dy_hist v) k = Some py.
Proof.
  rewrite explore_upto_all; intros Hv Hk.
  destruct (explore_upto_history M R c g _ v Hv 0 ltac:(lia))
    as (u0 & Hu0 & Hx0 & Hy0 & _).
  destruct (explore_upto_history M R c g _ v Hv k Hk)
    as (u & Hu & Hx & Hy & HDx & HDy & _).
  apply F64Facts.Ok_inj in Hu0; subst u0; cbn [x y initial] in Hx0, Hy0.
  destruct (explore_upto_reached M R c g k u Hu).
  exists 0%float, 0%float, (x u), (y u).
  rewrite !F64Facts.sub_0_r.
  repeat split; congruence.
Qed.

(** C2. Per-step update rule: pass [k] of the exploration draws one
    perturbation from [np.random.uniform(-pi/4, pi/4)], adds it to the
    heading recorded at [k], moves by [step_length] times the cosine and
    the sine of that perturbed heading, and adds the same move to the
    position and to the displacement estimate; the generator has been
    advanced once per pass. *)
Theorem exploration_step_rule (M : MathLib) (R : RandomSource)
  (c : Config) (g : rng_state R) (v : Vars R) (k : nat) :
  explore M R c g = Ok v ->
  (k < Z.to_nat (num_explore_steps c))%nat ->
  exists th px py ex ey,
    nth_error (theta_hist v) k = Some th /\
    nth_error (explore_x v) k = Some px /\
    nth_error (explore_y v) k = Some py /\
    nth_error (Dx_hist v) k = Some ex /\
    nth_error (Dy_hist v) k = Some ey /\
    let delta :=
      fst (np_random_uniform R (- F64.pi / 4)%float (F64.pi / 4)%float
             (rng_after R k g)) in
    let th' := (th + delta)%float in
    let dx := (step_length c * np_cos M th')%float in
    let dy := (step_length c * np_sin M th')%float in
    nth_error (explore_x v) (S k) = Some (px + dx)%float /\
    nth_error (explore_y v) (S k) = Some (py + dy)%float /\
    nth_error (Dx_hist v) (S k) = Some (ex + dx)%float /\
    nth_error (Dy_hist v) (S k) = Some (ey + dy)%float /\
    rng v = rng_after R (Z.to_nat (num_explore_steps c)) g.
Proof.
  intros Hv Hk.
  destruct (explore_consecutive M R c g v k Hv Hk)
    as (u & u' & Ru & Pu & Hx & Hy & HDx & HDy & Ht &
        Hx' & Hy' & HDx' & HDy' & _).
  exists (theta u), (x u), (y u), (Dx u), (Dy u).
  destruct Pu, Ru.
  change (- F64.pi / 4)%float with low; change (F64.pi / 4)%float with high.
  cbv zeta.
  rewrite <- draws_so_far0.
  rewrite explore_upto_all in Hv.
  destruct (explore_upto_reached M R c g _ v Hv).
  repeat split; congruence.
Qed.

(** C3, as the code has it.  Scan correction rule: pass [k] corrects the
    heading exactly when [k % scan_interval == 0], after the move, to
    [t - scan_gain * (t - sun_direction)] where [t] is the perturbed
    heading.  With gain [0.0] the corrected heading compares equal to [t]
    (when the deviation [t - sun_direction] is a number).  With gain
    [1.0] it is [t - (t - sun_direction)]: the reference itself when the
    reference is [0.0], and in general only up to the rounding of the
    inner subtraction. *)
Theorem scan_correction_rule (M : MathLib) (R : RandomSource)
  (c : Config) (g : rng_state R) (v : Vars R) (k : nat) :
  explore M R c g = Ok v ->
  (k < Z.to_nat (num_explore_steps c))%nat ->
  exists th,
    nth_error (theta_hist v) k = Some th /\
    let t := (th + perturbation R g k)%float in
    let scanned := (t - scan_gain c * (t - sun_direction c))%float in
    scan_interval c <> 0 /\
    nth_error (theta_hist v) (S k) =
      Some (if Z.of_nat k mod scan_interval c =? 0 then scanned else t) /\
    (scan_gain c = 0%float -> F64.finite (t - sun_direction c) = true ->
     (scanned =? t)%float = true) /\
    (scan_gain c = 1%float -> scanned = (t - (t - sun_direction c))%float) /\
    (scan_gain c = 1%float -> sun_direction c = 0%float ->
     F64.finite t = true -> scanned = 0%float).
Proof.
  intros Hv Hk.
  destruct (heading_after_pass M R c g v k Hv Hk) as (th & Ht & H0 & Ht').
  exists th; split; [exact Ht|]; cbv zeta.
  split; [exact H0|].
  split; [exact Ht'|].
  split; [|split].
  - intros -> Hd; apply F64Facts.zero_gain_correction; exact Hd.
  - intros ->; apply unit_gain_correction.
  - intros -> -> Hf; apply unit_gain_zero_reference; exact Hf.
Qed.

(** C10, as the code has it.  Implicit first-step scan: for every scan
    interval of at least 1 the pass of index 0 runs and corrects the
    heading, since [0 % scan_interval == 0]; the heading recorded after
    it is [t - scan_gain * (t - sun_direction)] with [t] the first
    perturbation added to the initial heading [0.0].  With gain [1.0]
    that is [t - (t - sun_direction)]: for the reference [0.0] it is the
    reference, whatever number was drawn, and for another reference it is
    the reference up to the rounding of the inner subtraction. *)
Theorem first_step_scans (M : MathLib) (R : RandomSource)
  (c : Config) (g : rng_state R) :
  1 <= scan_interval c ->
  1 <= num_explore_steps c ->
  exists v,
    explore M R c g = Ok v /\
    0 mod scan_interval c = 0 /\
    let t := (0 + fst (np_random_uniform R (low) (high) g))%float in
    nth_error (theta_hist v) 1 =
      Some (t - scan_gain c * (t - sun_direction c))%float /\
    (scan_gain c = 1%float ->
     nth_error (theta_hist v) 1 = Some (t - (t - sun_direction c))%float) /\
    (scan_gain c = 1%float -> sun_direction c = 0%float ->
     F64.finite t = true -> nth_error (theta_hist v) 1 = Some 0%float).
Proof.
  intros Hs Hn.
  destruct (explore_upto_total M R c g (Z.to_nat (num_explore_steps c))
              ltac:(lia)) as (v & Hv).
  rewrite <- explore_upto_all in Hv.
  exists v; split; [exact Hv|].
  split; [apply Z.mod_0_l; lia|].
  destruct (heading_after_pass M R c g v 0 Hv ltac:(lia))
    as (th & Hth & _ & Hrule).
  rewrite explore_upto_all in Hv.
  destruct (explore_upto_history M R c g _ v Hv 0 ltac:(lia))
    as (u0 & Hu0 & _ & _ & _ & _ & Ht0).
  apply F64Facts.Ok_inj in Hu0; subst u0; cbn [theta initial] in Ht0.
  assert (th = 0%float) by congruence; subst th.
  change (perturbation R g 0) with (fst (np_random_uniform R low high g))
    in Hrule.
  change (Z.of_nat 0) with 0 in Hrule.
  rewrite Z.mod_0_l, Z.eqb_refl in Hrule by lia.
  cbv zeta; split; [exact Hrule|].
  split.
  - intros H1; rewrite Hrule, H1, unit_gain_correction; reflexivity.
  - intros H1 H2 H3; rewrite Hrule, H1, H2.
    rewrite (unit_gain_zero_reference _ H3); reflexivity.
Qed.

(** ** Properties of the return *)

(** C4. Return direction: the summary of the return is computed from the
    final displacement estimate [(Dx, Dy)], the last entries of the
    displacement histories: the magnitude is [sqrt(Dx**2 + Dy**2)] and
    the return angle is [arctan2(Dy, Dx) + pi], the direction of the
    accumulated displacement turned by half a turn. *)
Theorem return_direction (M : MathLib) (R : RandomSource) (c : Config)
  (r : Run R) :
  simulate M R c = Ok r ->
  exists dx dy,
    nth_error (Dx_hist (explored r)) (Z.to_nat (num_explore_steps c)) =
      Some dx /\
    nth_error (Dy_hist (explored r)) (Z.to_nat (num_explore_steps c)) =
      Some dy /\
    R_mag r = sqrt (float_pow M dx 2 + float_pow M dy 2)%float /\
    R_angle r = np_arctan2 M dy dx /\
    home_angle r = (R_angle r + F64.pi)%float /\
    home_angle r = (np_arctan2 M dy dx + F64.pi)%float.
Proof.
  intros H; apply simulate_Ok in H; destruct H as (He & Hg).
  apply go_home_Ok in Hg.
  destruct Hg as (_ & Hmag & Hang & Hhome & _).
  pose proof He as He'; rewrite explore_upto_all in He'.
  destruct (explore_upto_history M R c _ _ _ He' _ (le_n _))
    as (u & Hu & _ & _ & HDx & HDy & _).
  assert (u = explored r) by congruence; subst u.
  exists (Dx (explored r)), (Dy (explored r)).
  repeat split; try assumption.
  rewrite Hhome, Hang; reflexivity.
Qed.

(** C5. Return step count: the number of return steps is
    [int(R_mag / step_length)], which for a positive step length is the
    floor of that quotient, so that less than one step length is left
    over; the return path starts at the position where the exploration
    ended, and each return step adds exactly
    [step_length * (cos(home_angle), sin(home_angle))] to the position
    before it, with no draw and no change of angle. *)
Theorem return_steps (M : MathLib) (R : RandomSource) (c : Config)
  (r : Run R) :
  simulate M R c = Ok r ->
  F64.py_int (R_mag r / step_length c)%float = Ok (num_home_steps r) /\
  ((0 <? step_length c)%float = true ->
   exists q, F64.to_Q (R_mag r / step_length c)%float = Some q /\
             num_home_steps r = Qfloor q /\
             (inject_Z (num_home_steps r) <= q)%Q /\
             (q < inject_Z (num_home_steps r + 1))%Q) /\
  length (home_x (homing r)) = S (Z.to_nat (num_home_steps r)) /\
  length (home_y (homing r)) = S (Z.to_nat (num_home_steps r)) /\
  nth_error (home_x (homing r)) 0 = Some (x (explored r)) /\
  nth_error (home_y (homing r)) 0 = Some (y (explored r)) /\
  rng (explored r) =
    rng_after R (Z.to_nat (num_explore_steps c)) (np_random_seed R (seed c)) /\
  forall j, (j < Z.to_nat (num_home_steps r))%nat ->
  exists px py,
    nth_error (home_x (homing r)) j = Some px /\
    nth_error (home_y (homing r)) j = Some py /\
    nth_error (home_x (homing r)) (S j) =
      Some (px + step_length c * np_cos M (home_angle r))%float /\
    nth_error (home_y (homing r)) (S j) =
      Some (py + step_length c * np_sin M (home_angle r))%float.
Proof.
  intros H; apply simulate_Ok in H; destruct H as (He & Hg).
  apply go_home_Ok in Hg.
  destruct Hg as (_ & Hmag & _ & _ & Hint & Hx & Hy).
  split; [exact Hint|].
  split.
  { intros Hpos.
    assert (Hnn : F64.nonneg (R_mag r / step_length c) = true).
    { apply F64Facts.div_pos_nonneg; [|exact Hpos].
      rewrite Hmag; apply F64Facts.sqrt_nonneg. }
    destruct (F64Facts.py_int_floor _ _ Hnn Hint) as (q & Hq & Hfl).
    exists q; split; [exact Hq|]; split; [exact Hfl|].
    rewrite Hfl; split; [apply Qfloor_le | apply Qlt_floor]. }
  rewrite Hx, Hy; simpl length; rewrite !straight_length.
  split; [reflexivity|]; split; [reflexivity|].
  split; [reflexivity|]; split; [reflexivity|].
  split.
  { rewrite explore_upto_all in He.
    destruct (explore_upto_reached M R c _ _ _ He); assumption. }
  intros j Hj.
  destruct (straight_step (step_length c * np_cos M (home_angle r))
              _ (x (explored r)) j Hj) as (px & Hpx & Hpx').
  destruct (straight_step (step_length c * np_sin M (home_angle r))
              _ (y (explored r)) j Hj) as (py & Hpy & Hpy').
  exists px, py; auto.
Qed.

(** C6. Recorded sequence lengths: the five exploration histories
    (positions, displacement estimates, headings) each hold one entry
    for the initial state and one per exploration pass, and the return
    path holds the position where the exploration ended and one position
    per return step; for a step count that is not negative and a positive
    step length these lengths are [num_explore_steps + 1] and
    [num_home_steps + 1]. *)
Theorem recorded_lengths (M : MathLib) (R : RandomSource) (c : Config)
  (r : Run R) :
  simulate M R c = Ok r ->
  let v := explored r in
  (length (explore_x v) = S (Z.to_nat (num_explore_steps c)) /\
   length (explore_y v) = S (Z.to_nat (num_explore_steps c)) /\
   length (Dx_hist v) = S (Z.to_nat (num_explore_steps c)) /\
   length (Dy_hist v) = S (Z.to_nat (num_explore_steps c)) /\
   length (theta_hist v) = S (Z.to_nat (num_explore_steps c)) /\
   length (home_x (homing r)) = S (Z.to_nat (num_home_steps r)) /\
   length (home_y (homing r)) = S (Z.to_nat (num_home_steps r))) /\
  (0 <= num_explore_steps c ->
   Z.of_nat (length (explore_x v)) = num_explore_steps c + 1 /\
   Z.of_nat (length (explore_y v)) = num_explore_steps c + 1 /\
   Z.of_nat (length (Dx_hist v)) = num_explore_steps c + 1 /\
   Z.of_nat (length (Dy_hist v)) = num_explore_steps c + 1 /\
   Z.of_nat (length (theta_hist v)) = num_explore_steps c + 1) /\
  ((0 <? step_length c)%float = true ->
   0 <= num_home_steps r /\
   Z.of_nat (length (home_x (homing r))) = num_home_steps r + 1 /\
   Z.of_nat (length (home_y (homing r))) = num_home_steps r + 1).
Proof.
  intros H v; apply simulate_Ok in H; destruct H as (He & Hg).
  apply go_home_Ok in Hg.
  destruct Hg as (_ & Hmag & _ & _ & Hint & Hx & Hy).
  rewrite explore_upto_all in He.
  destruct (explore_upto_reached M R c _ _ _ He).
  assert (Hlx : length (home_x (homing r)) = S (Z.to_nat (num_home_steps r)))
    by (rewrite Hx; simpl; rewrite straight_length; reflexivity).
  assert (Hly : length (home_y (homing r)) = S (Z.to_nat (num_home_steps r)))
    by (rewrite Hy; simpl; rewrite straight_length; reflexivity).
  split; [subst v; tauto|].
  split.
  - intros Hn; subst v; repeat split; lia.
  - intros Hpos.
    assert (Hnn : 0 <= num_home_steps r).
    { apply (F64Facts.py_int_nonneg (R_mag r / step_length c)); [|exact Hint].
      apply F64Facts.div_pos_nonneg; [|exact Hpos].
      rewrite Hmag; apply F64Facts.sqrt_nonneg. }
    repeat split; lia.
Qed.

(** C8. Zero-step edge case: with no exploration step (and a positive
    step length) the run completes; the histories hold the initial state
    only, the final displacement estimate is (0, 0), the magnitude is 0,
    there is no return step, and the return path is the single point
    where the exploration ended, the origin.  ([0.0 ** 2] is [0.0] in
    every C library.) *)
Theorem zero_steps (M : MathLib) (R : RandomSource) (c : Config) :
  num_explore_steps c = 0 ->
  (0 <? step_length c)%float = true ->
  float_pow M 0 2 = 0%float ->
  exists r,
    simulate M R c = Ok r /\
    explored r = initial R (np_random_seed R (seed c)) /\
    explore_x (explored r) = [0%float] /\
    explore_y (explored r) = [0%float] /\
    theta_hist (explored r) = [0%float] /\
    Dx_hist (explored r) = [0%float] /\
    Dy_hist (explored r) = [0%float] /\
    Dx (explored r) = 0%float /\ Dy (explored r) = 0%float /\
    R_mag r = 0%float /\
    num_home_steps r = 0 /\
    home_x (homing r) = [x (explored r)] /\
    home_y (homing r) = [y (explored r)] /\
    home_x (homing r) = [0%float] /\
    home_y (homing r) = [0%float].
Proof.
  intros Hn Hpos Hpow.
  unfold simulate, explore; rewrite Hn; simpl for_loop; simpl bind.
  unfold go_home; cbn [Dx Dy x y initial]; rewrite Hpow.
  change (sqrt (0 + 0))%float with 0%float.
  rewrite (F64Facts.py_int_zero_div _ Hpos); simpl.
  eexists; split; [reflexivity|]; simpl.
  repeat split; reflexivity.
Qed.

(** ** Reproducibility *)

Section TwoSources.

Variable M : MathLib.
Variables R1 R2 : RandomSource.

Local Open Scope float_scope.

(** A pass reads the generator only for its perturbation. *)
Lemma explore_body_visible (c : Config) (step : Z) (v1 : Vars R1)
  (v2 : Vars R2) :
  visible v1 = visible v2 ->
  fst (np_random_uniform R1 low high (rng v1)) =
  fst (np_random_uniform R2 low high (rng v2)) ->
  result_map visible (explore_body M R1 c step v1) =
  result_map visible (explore_body M R2 c step v2).
Proof.
  unfold visible; intros Hv Hd.
  injection Hv as Hx Hy HDx HDy Ht Hex Hey HeDx HeDy Het.
  unfold explore_body.
  destruct (np_random_uniform R1 low high (rng v1)) as [d1 g1'].
  destruct (np_random_uniform R2 low high (rng v2)) as [d2 g2'].
  simpl in Hd; subst d2.
  rewrite Hx, Hy, HDx, HDy, Ht, Hex, Hey, HeDx, HeDy, Het.
  destruct (py_mod step (scan_interval c)) as [r|e]; reflexivity.
Qed.

Lemma explore_upto_visible (c : Config) (g1 : rng_state R1)
  (g2 : rng_state R2) (k : nat) :
  (forall j, (j < k)%nat -> perturbation R1 g1 j = perturbation R2 g2 j) ->
  result_map visible (explore_upto M R1 c g1 k) =
  result_map visible (explore_upto M R2 c g2 k).
Proof.
  induction k as [|k IH]; intros Hd; [reflexivity|].
  rewrite !explore_upto_S.
  specialize (IH (fun j Hj => Hd j (Nat.lt_lt_succ_r _ _ Hj))).
  destruct (explore_upto M R1 c g1 k) as [u1|e1] eqn:H1;
    destruct (explore_upto M R2 c g2 k) as [u2|e2] eqn:H2;
    simpl in IH; try discriminate; simpl bind; [|exact IH].
  apply explore_body_visible; [congruence|].
  destruct (explore_upto_reached M R1 c g1 k u1 H1).
  destruct (explore_upto_reached M R2 c g2 k u2 H2).
  rewrite draws_so_far0, draws_so_far1; apply (Hd k); lia.
Qed.

(** The return is computed from the variables alone. *)
Lemma go_home_visible (c : Config) (v1 : Vars R1) (v2 : Vars R2) :
  visible v1 = visible v2 ->
  result_map observe (go_home M R1 c v1) =
  result_map observe (go_home M R2 c v2).
Proof.
  unfold visible; intros Hv.
  injection Hv as Hx Hy HDx HDy Ht Hex Hey HeDx HeDy Het.
  unfold go_home; rewrite Hx, Hy, HDx, HDy.
  destruct (F64.py_int _) as [n|e]; simpl; [|reflexivity].
  destruct (for_loop _ _ _) as [h|e]; simpl; [|reflexivity].
  unfold observe; simpl.
  rewrite Hex, Hey, HeDx, HeDy, Het; reflexivity.
Qed.

End TwoSources.

(** C9. Determinism: a run is a function of the configuration and of
    the perturbations drawn, one per exploration pass and in pass order.
    Two runs of one configuration whose generators yield the same
    perturbations (as the same generator seeded with the same seed does)
    record the same exploration sequences, the same return path and the
    same return summary, or fail alike; and a completed run has advanced
    its generator by exactly one draw per exploration pass. *)
Theorem determinism (M : MathLib) (R1 R2 : RandomSource) (c : Config) :
  (forall k, (k < Z.to_nat (num_explore_steps c))%nat ->
     perturbation R1 (np_random_seed R1 (seed c)) k =
     perturbation R2 (np_random_seed R2 (seed c)) k) ->
  result_map observe (simulate M R1 c) = result_map observe (simulate M R2 c) /\
  (forall r, simulate M R1 c = Ok r ->
     rng (explored r) =
     rng_after R1 (Z.to_nat (num_explore_steps c))
       (np_random_seed R1 (seed c))).
Proof.
  intros Hd; split.
  - pose proof (explore_upto_visible M R1 R2 c _ _ _ Hd) as He.
    rewrite <- !explore_upto_all in He.
    unfold simulate.
    destruct (explore M R1 c _) as [v1|e1];
      destruct (explore M R2 c _) as [v2|e2];
      simpl in He; try discriminate; simpl bind.
    + apply go_home_visible; congruence.
    + injection He as ->; reflexivity.
  - intros r Hr; apply simulate_Ok in Hr; destruct Hr as (He & _).
    rewrite explore_upto_all in He.
    destruct (explore_upto_reached M R1 c _ _ _ He); assumption.
Qed.

(** ** Configurations outside the documented ranges *)

Section Unchecked.

Variable M : MathLib.
Variable R : RandomSource.

Local Open Scope float_scope.

Lemma explore_no_steps (c : Config) (g : rng_state R) :
  (num_explore_steps c <= 0)%Z -> explore M R c g = Ok (initial R g).
Proof.
  intros Hn; unfold explore; rewrite range_nonpos by exact Hn; reflexivity.
Qed.

Lemma explore_zero_interval (c : Config) (g : rng_state R) :
  (1 <= num_explore_steps c)%Z -> scan_interval c = 0%Z ->
  explore M R c g = Raise ZeroDivisionError.
Proof.
  intros Hn H0; unfold explore, range.
  destruct (Z.to_nat (num_explore_steps c)) as [|n] eqn:Hk; [lia|].
  simpl; unfold explore_body, py_mod.
  destruct (np_random_uniform R low high (rng (initial R g))) as [d g'].
  rewrite H0; reflexivity.
Qed.

(** The return fails exactly when the quotient is not a number. *)
Lemma go_home_finite (c : Config) (v : Vars R) :
  F64.finite (sqrt (float_pow M (Dx v) 2 + float_pow M (Dy v) 2)
              / step_length c) = true ->
  exists r, go_home M R c v = Ok r.
Proof.
  intros Hf; unfold go_home.
  destruct (F64Facts.py_int_finite _ Hf) as (n & ->); simpl bind.
  match goal with
  | |- context [for_loop (range n) (home_body M c ?a) ?h0] =>
      destruct (home_loop M c a (range n) h0) as (h & -> & _)
  end.
  simpl; eauto.
Qed.

Lemma go_home_not_finite (c : Config) (v : Vars R) :
  F64.finite (sqrt (float_pow M (Dx v) 2 + float_pow M (Dy v) 2)
              / step_length c) = false ->
  go_home M R c v = Raise ValueError \/
  go_home M R c v = Raise OverflowError.
Proof.
  intros Hf; unfold go_home.
  destruct (F64Facts.py_int_not_finite _ Hf) as [-> | ->]; auto.
Qed.

End Unchecked.

(** C7, as the code has it.  There is no configuration check and no
    InvalidConfiguration failure.  A number of exploration steps of
    zero or less runs no pass and leaves the initial state.  With at
    least one pass, a scan interval of zero raises ZeroDivisionError in
    the first pass; any other scan interval, negative ones included,
    lets the exploration complete.  After the exploration the run
    completes exactly when [R_mag / step_length] is a number, and fails
    with ValueError or OverflowError otherwise, as it always does for a
    step length of zero. *)
Theorem no_configuration_check (M : MathLib) (R : RandomSource) (c : Config) :
  let g := np_random_seed R (seed c) in
  (num_explore_steps c <= 0 -> explore M R c g = Ok (initial R g)) /\
  (1 <= num_explore_steps c -> scan_interval c = 0 ->
   simulate M R c = Raise ZeroDivisionError) /\
  (scan_interval c <> 0 -> exists v, explore M R c g = Ok v) /\
  (forall v, explore M R c g = Ok v ->
     let q := (sqrt (float_pow M (Dx v) 2 + float_pow M (Dy v) 2)
               / step_length c)%float in
     (F64.finite q = true -> exists r, simulate M R c = Ok r) /\
     (F64.finite q = false ->
      simulate M R c = Raise ValueError \/
      simulate M R c = Raise OverflowError) /\
     ((step_length c =? 0)%float = true -> F64.finite q = false)).
Proof.
  intros g; split; [apply explore_no_steps|].
  split.
  { intros Hn H0; unfold simulate.
    rewrite (explore_zero_interval M R c _ Hn H0); reflexivity. }
  split.
  { intros H0; rewrite explore_upto_all; apply explore_upto_total; exact H0. }
  intros v Hv q; unfold simulate; fold g; rewrite Hv; simpl bind.
  split; [apply go_home_finite|].
  split; [apply go_home_not_finite|].
  apply F64Facts.div_zero_not_finite.
Qed.

(** ** Worked examples *)

Module Worked.

Import Examples.
Local Open Scope float_scope.

Lemma scenario_explores :
  explore ref_math (replay zero_draws) scenario zero_draws =
  Ok scenario_explored.
Proof. vm_compute; reflexivity. Qed.

Lemma scenario_simulates :
  simulate ref_math (replay zero_draws) scenario = Ok scenario_run.
Proof. vm_compute; reflexivity. Qed.

(** C1 on the scenario, at index 2. *)
Lemma path_integration_identity_scenario :
  explore ref_math (replay zero_draws) scenario zero_draws =
    Ok scenario_explored /\
  (2 <= Z.to_nat (num_explore_steps scenario))%nat /\
  exists x0 y0 px py,
    nth_error (explore_x scenario_explored) 0 = Some x0 /\
    nth_error (explore_y scenario_explored) 0 = Some y0 /\
    x0 = 0 /\ y0 = 0 /\
    nth_error (explore_x scenario_explored) 2 = Some px /\
    nth_error (explore_y scenario_explored) 2 = Some py /\
    nth_error (Dx_hist scenario_explored) 2 = Some (px - x0) /\
    nth_error (Dy_hist scenario_explored) 2 = Some (py - y0) /\
    nth_error (Dx_hist scenario_explored) 2 = Some px /\
    nth_error (Dy_hist scenario_explored) 2 = Some py.
Proof.
  assert (He : explore ref_math (replay zero_draws) scenario zero_draws =
               Ok scenario_explored) by (vm_compute; reflexivity).
  assert (Hk : (2 <= Z.to_nat (num_explore_steps scenario))%nat)
    by (vm_compute; lia).
  split; [exact He|]; split; [exact Hk|].
  exact (path_integration_identity ref_math (replay zero_draws) scenario
           zero_draws scenario_explored 2 He Hk).
Defined.

(** C2 on the scenario, at the last pass. *)
Lemma exploration_step_rule_scenario :
  explore ref_math (replay zero_draws) scenario zero_draws =
    Ok scenario_explored /\
  (2 < Z.to_nat (num_explore_steps scenario))%nat /\
  exists th px py ex ey,
    nth_error (theta_hist scenario_explored) 2 = Some th /\
    nth_error (explore_x scenario_explored) 2 = Some px /\
    nth_error (explore_y scenario_explored) 2 = Some py /\
    nth_error (Dx_hist scenario_explored) 2 = Some ex /\
    nth_error (Dy_hist scenario_explored) 2 = Some ey /\
    let delta :=
      fst (np_random_uniform (replay zero_draws) (- F64.pi / 4)
             (F64.pi / 4) (rng_after (replay zero_draws) 2 zero_draws)) in
    let th' := th + delta in
    let dx := step_length scenario * np_cos ref_math th' in
    let dy := step_length scenario * np_sin ref_math th' in
    nth_error (explore_x scenario_explored) 3 = Some (px + dx) /\
    nth_error (explore_y scenario_explored) 3 = Some (py + dy) /\
    nth_error (Dx_hist scenario_explored) 3 = Some (ex + dx) /\
    nth_error (Dy_hist scenario_explored) 3 = Some (ey + dy) /\
    rng scenario_explored =
      rng_after (replay zero_draws) (Z.to_nat (num_explore_steps scenario))
        zero_draws.
Proof.
  assert (He : explore ref_math (replay zero_draws) scenario zero_draws =
               Ok scenario_explored) by (vm_compute; reflexivity).
  assert (Hk : (2 < Z.to_nat (num_explore_steps scenario))%nat)
    by (vm_compute; lia).
  split; [exact He|]; split; [exact Hk|].
  exact (exploration_step_rule ref_math (replay zero_draws) scenario
           zero_draws scenario_explored 2 He Hk).
Defined.

(** C3: the rule on the scenario, at pass 0. *)
Lemma scan_correction_rule_scenario :
  explore ref_math (replay zero_draws) scenario zero_draws =
    Ok scenario_explored /\
  (0 < Z.to_nat (num_explore_steps scenario))%nat /\
  exists th,
    nth_error (theta_hist scenario_explored) 0 = Some th /\
    let t := th + perturbation (replay zero_draws) zero_draws 0 in
    let scanned := t - scan_gain scenario * (t - sun_direction scenario) in
    scan_interval scenario <> 0%Z /\
    nth_error (theta_hist scenario_explored) 1 =
      Some (if (Z.of_nat 0 mod scan_interval scenario =? 0)%Z
            then scanned else t) /\
    (scan_gain scenario = 0 ->
     F64.finite (t - sun_direction scenario) = true ->
     (scanned =? t) = true) /\
    (scan_gain scenario = 1 ->
     scanned = t - (t - sun_direction scenario)) /\
    (scan_gain scenario = 1 -> sun_direction scenario = 0 ->
     F64.finite t = true -> scanned = 0).
Proof.
  assert (He : explore ref_math (replay zero_draws) scenario zero_draws =
               Ok scenario_explored) by (vm_compute; reflexivity).
  assert (Hk : (0 < Z.to_nat (num_explore_steps scenario))%nat)
    by (vm_compute; lia).
  split; [exact He|]; split; [exact Hk|].
  exact (scan_correction_rule ref_math (replay zero_draws) scenario
           zero_draws scenario_explored 0 He Hk).
Defined.

(** C3 refuted as stated: the first two numbers that NumPy's generator
    yields after [np.random.seed(1)], gain [1.0], reference [0.05], a scan
    at every pass.  Pass 1 perturbs the heading to about 0.396 and the
    scan then gives 0.04999999999999999, two units in the last place below
    the reference.  (The headings are the same for every math library:
    [explore_headings].) *)
Lemma unit_gain_misses_reference :
  result_map (fun v => theta_hist v)
    (explore ref_math (scaled seed1_units) turn_config seed1_units) =
    Ok [0; 0x1.9999999999998p-5; 0x1.9999999999998p-5] /\
  (Z.of_nat 1 mod scan_interval turn_config =? 0)%Z = true /\
  scan_gain turn_config = 1 /\
  0x1.9999999999998p-5 + perturbation (scaled seed1_units) seed1_units 1 =
    0x1.95974805b0837p-2 /\
  0x1.95974805b0837p-2 - 1 * (0x1.95974805b0837p-2 - sun_direction turn_config)
    = 0x1.9999999999998p-5 /\
  (0x1.9999999999998p-5 =? sun_direction turn_config) = false.
Proof. repeat split; vm_compute; reflexivity. Qed.

(** Why the rule for gain [0.0] asks for a deviation that is a number:
    with an infinite reference the deviation is infinite, its product
    with [0.0] is NaN, and so is the corrected heading. *)
Lemma zero_gain_needs_a_number :
  result_map (fun v => theta_hist v)
    (explore ref_math (replay zero_draws) lost_config zero_draws) =
  Ok [0; nan].
Proof. vm_compute; reflexivity. Qed.

(** C10 on the scenario. *)
Lemma first_step_scans_scenario :
  (1 <= scan_interval scenario)%Z /\
  (1 <= num_explore_steps scenario)%Z /\
  exists v,
    explore ref_math (replay zero_draws) scenario zero_draws = Ok v /\
    (0 mod scan_interval scenario = 0)%Z /\
    let t :=
      0 + fst (np_random_uniform (replay zero_draws) (low) (high)
                 zero_draws) in
    nth_error (theta_hist v) 1 =
      Some (t - scan_gain scenario * (t - sun_direction scenario)) /\
    (scan_gain scenario = 1 ->
     nth_error (theta_hist v) 1 = Some (t - (t - sun_direction scenario))) /\
    (scan_gain scenario = 1 -> sun_direction scenario = 0 ->
     F64.finite t = true -> nth_error (theta_hist v) 1 = Some 0).
Proof.
  assert (Hs : (1 <= scan_interval scenario)%Z) by (vm_compute; discriminate).
  assert (Hn : (1 <= num_explore_steps scenario)%Z)
    by (vm_compute; discriminate).
  split; [exact Hs|]; split; [exact Hn|].
  exact (first_step_scans ref_math (replay zero_draws) scenario zero_draws
           Hs Hn).
Defined.

(** C10 refuted as stated: scan interval 10, gain [1.0], reference
    [0.05], and the first number that NumPy's generator yields after
    [np.random.seed(1)], which gives the perturbation -0.130341530218001.
    The heading recorded after the first pass is 0.04999999999999999, not
    the reference.  (The headings are the same for every math library:
    [explore_headings].) *)
Lemma first_scan_misses_reference :
  (1 <=? scan_interval first_config)%Z = true /\
  (1 <=? num_explore_steps first_config)%Z = true /\
  scan_gain first_config = 1 /\
  perturbation (scaled seed1_units) seed1_units 0 = -0x1.0af0800cc678cp-3 /\
  result_map (fun v => nth_error (theta_hist v) 1)
    (explore ref_math (scaled seed1_units) first_config seed1_units) =
    Ok (Some 0x1.9999999999998p-5) /\
  (0x1.9999999999998p-5 =? sun_direction first_config) = false.
Proof. repeat split; vm_compute; reflexivity. Qed.

(** C4 on the scenario. *)
Lemma return_direction_scenario :
  simulate ref_math (replay zero_draws) scenario = Ok scenario_run /\
  exists dx dy,
    nth_error (Dx_hist (explored scenario_run))
      (Z.to_nat (num_explore_steps scenario)) = Some dx /\
    nth_error (Dy_hist (explored scenario_run))
      (Z.to_nat (num_explore_steps scenario)) = Some dy /\
    R_mag scenario_run =
      sqrt (float_pow ref_math dx 2 + float_pow ref_math dy 2) /\
    R_angle scenario_run = np_arctan2 ref_math dy dx /\
    home_angle scenario_run = R_angle scenario_run + F64.pi /\
    home_angle scenario_run = np_arctan2 ref_math dy dx + F64.pi.
Proof.
  assert (Hr : simulate ref_math (replay zero_draws) scenario =
               Ok scenario_run) by (vm_compute; reflexivity).
  split; [exact Hr|].
  exact (return_direction ref_math (replay zero_draws) scenario
           scenario_run Hr).
Defined.

(** C5 on the scenario: three return steps. *)
Lemma return_steps_scenario :
  simulate ref_math (replay zero_draws) scenario = Ok scenario_run /\
  F64.py_int (R_mag scenario_run / step_length scenario) =
    Ok (num_home_steps scenario_run) /\
  num_home_steps scenario_run = 3%Z.
Proof.
  assert (Hr : simulate ref_math (replay zero_draws) scenario =
               Ok scenario_run) by (vm_compute; reflexivity).
  split; [exact Hr|].
  split; [|reflexivity].
  exact (proj1 (return_steps ref_math (replay zero_draws) scenario
                  scenario_run Hr)).
Defined.

(** C6 on the scenario: four snapshots, four points on the way home. *)
Lemma recorded_lengths_scenario :
  simulate ref_math (replay zero_draws) scenario = Ok scenario_run /\
  length (explore_x (explored scenario_run)) = 4%nat /\
  length (home_x (homing scenario_run)) = 4%nat.
Proof.
  assert (Hr : simulate ref_math (replay zero_draws) scenario =
               Ok scenario_run) by (vm_compute; reflexivity).
  split; [exact Hr|].
  pose proof (proj1 (recorded_lengths ref_math (replay zero_draws) scenario
                       scenario_run Hr)) as H.
  split; [exact (proj1 H) | exact (proj1 (proj2 (proj2 (proj2 (proj2 (proj2 H))))))].
Defined.

(** C7 refuted as stated: the scenario with a scan interval of -1, with
    a step length of -0.5, and with -1 exploration steps; each run
    completes and produces its sequences and its summary. *)
Lemma invalid_configurations_run :
  (scan_interval negative_interval <? 1)%Z = true /\
  result_map observe
    (simulate ref_math (replay zero_draws) negative_interval) =
    Ok scenario_observation /\
  (step_length negative_length <=? 0) = true /\
  result_map observe
    (simulate ref_math (replay zero_draws) negative_length) =
    Ok backward_observation /\
  (num_explore_steps negative_count <? 0)%Z = true /\
  result_map observe
    (simulate ref_math (replay zero_draws) negative_count) =
    Ok origin_observation.
Proof. repeat split; vm_compute; reflexivity. Qed.

(** C8 on the scenario without steps. *)
Lemma zero_steps_scenario :
  num_explore_steps no_step = 0%Z /\
  (0 <? step_length no_step) = true /\
  float_pow ref_math 0 2 = 0 /\
  exists r,
    simulate ref_math (replay zero_draws) no_step = Ok r /\
    explored r =
      initial (replay zero_draws)
        (np_random_seed (replay zero_draws) (seed no_step)) /\
    explore_x (explored r) = [0] /\
    explore_y (explored r) = [0] /\
    theta_hist (explored r) = [0] /\
    Dx_hist (explored r) = [0] /\
    Dy_hist (explored r) = [0] /\
    Dx (explored r) = 0 /\ Dy (explored r) = 0 /\
    R_mag r = 0 /\
    num_home_steps r = 0%Z /\
    home_x (homing r) = [x (explored r)] /\
    home_y (homing r) = [y (explored r)] /\
    home_x (homing r) = [0] /\
    home_y (homing r) = [0].
Proof.
  assert (Hn : num_explore_steps no_step = 0%Z) by reflexivity.
  assert (Hl : (0 <? step_length no_step) = true) by reflexivity.
  assert (Hp : float_pow ref_math 0 2 = 0) by reflexivity.
  split; [exact Hn|]; split; [exact Hl|]; split; [exact Hp|].
  exact (zero_steps ref_math (replay zero_draws) no_step Hn Hl Hp).
Defined.

(** C9 on the scenario: a generator that goes on differently after the
    three draws the scenario makes. *)
Lemma determinism_scenario :
  result_map observe (simulate ref_math (replay zero_draws) scenario) =
  result_map observe
    (simulate ref_math (replay (zero_draws ++ [0.5])) scenario) /\
  (forall r, simulate ref_math (replay zero_draws) scenario = Ok r ->
     rng (explored r) =
     rng_after (replay zero_draws) (Z.to_nat (num_explore_steps scenario))
       (np_random_seed (replay zero_draws) (seed scenario))).
Proof.
  apply (determinism ref_math (replay zero_draws)
           (replay (zero_draws ++ [0.5])) scenario).
  intros k Hk.
  change (Z.to_nat (num_explore_steps scenario)) with 3%nat in Hk.
  destruct k as [|[|[|k]]]; [reflexivity | reflexivity | reflexivity | lia].
Defined.

End Worked.

(** ** Python sequences *)

Lemma py_index_nonneg {A : Type} (l : list A) (i : Z) :
  0 <= i -> py_index l i = nth_error l (Z.to_nat i).
Proof.
  intros Hi; unfold py_index.
  destruct (Z.leb_spec 0 i) as [_|H]; [reflexivity | lia].
Qed.

Lemma py_index_negative {A : Type} (l : list A) (i : Z) :
  - Z.of_nat (length l) <= i < 0 ->
  py_index l i = nth_error l (Z.to_nat (Z.of_nat (length l) + i)).
Proof.
  intros Hi; unfold py_index.
  destruct (Z.leb_spec 0 i) as [H|_]; [lia|].
  destruct (Z.leb_spec (- Z.of_nat (length l)) i) as [_|H];
    [reflexivity | lia].
Qed.


Lemma py_prefix_nonneg {A : Type} (l : list A) (k : Z) :
  0 <= k -> py_prefix l k = firstn (Z.to_nat k) l.
Proof.
  intros Hk; unfold py_prefix.
  destruct (Z.leb_spec 0 k) as [_|H]; [reflexivity | lia].
Qed.


Lemma nth_error_within {A : Type} (l : list A) (k : nat) :
  (k < length l)%nat -> exists a, nth_error l k = Some a.
Proof.
  intros Hk; destruct (nth_error l k) as [a|] eqn:Hn; [eauto|].
  apply nth_error_None in Hn; lia.
Qed.

(** ** The figure, frame by frame *)

Section DisplayFacts.

Variable M : MathLib.
Variable R : RandomSource.
Variable np_degrees : float -> float.

(** What the plotting code relies on in a completed run. *)
Lemma run_shape (c : Config) (r : Run R) :
  simulate M R c = Ok r ->
  let v := explored r in
  let n := Z.to_nat (num_explore_steps c) in
  (length (explore_x v) = S n /\ length (explore_y v) = S n /\
   length (Dx_hist v) = S n /\ length (Dy_hist v) = S n /\
   length (theta_hist v) = S n) /\
  (Dx_hist v = explore_x v /\ Dy_hist v = explore_y v /\
   Dx v = x v /\ Dy v = y v) /\
  (nth_error (explore_x v) n = Some (x v) /\
   nth_error (explore_y v) n = Some (y v)) /\
  R_mag r = sqrt (float_pow M (Dx v) 2 + float_pow M (Dy v) 2)%float /\
  exists tx ty,
    home_x (homing r) = x v :: tx /\ home_y (homing r) = y v :: ty /\
    length tx = Z.to_nat (num_home_steps r) /\
    length ty = Z.to_nat (num_home_steps r).
Proof.
  intros H v n; apply simulate_Ok in H; destruct H as (He & Hg).
  apply go_home_Ok in Hg.
  destruct Hg as (_ & Hmag & _ & _ & _ & Hx & Hy).
  rewrite explore_upto_all in He.
  destruct (explore_upto_history M R c _ _ _ He _ (le_n _))
    as (u & Hu & Hnx & Hny & _).
  assert (u = explored r) by congruence; subst u.
  destruct (explore_upto_reached M R c _ _ _ He).
  fold v n in len_explore_x0, len_explore_y0, len_Dx_hist0, len_Dy_hist0,
    len_theta_hist0, same_x0, same_y0, same_x_hist0, same_y_hist0, Hnx, Hny.
  split; [tauto|]; split; [tauto|]; split; [tauto|].
  split; [exact Hmag|].
  eexists _, _; split; [exact Hx|]; split; [exact Hy|].
  rewrite !straight_length; auto.
Qed.

(** [update] on a frame of the exploration. *)
Lemma update_exploring (c : Config) (r : Run R) (frame : Z) (fig : Figure) :
  simulate M R c = Ok r ->
  0 <= frame < Z.of_nat (length (explore_x (explored r))) ->
  exists px py th,
    nth_error (explore_x (explored r)) (Z.to_nat frame) = Some px /\
    nth_error (explore_y (explored r)) (Z.to_nat frame) = Some py /\
    nth_error (theta_hist (explored r)) (Z.to_nat frame) = Some th /\
    update M R np_degrees r frame fig =
    Some {| line_explore :=
              (firstn (Z.to_nat frame) (explore_x (explored r)),
               firstn (Z.to_nat frame) (explore_y (explored r)));
            line_home := line_home fig;
            ant_dot := ([px], [py]);
            vector_arrow :=
              Some {| arrow_x := 0; arrow_y := 0;
                      arrow_dx := px; arrow_dy := py |};
            info_text :=
              ExplorationPhase px py px py
                (sqrt (float_pow M px 2 + float_pow M py 2))%float
                (np_degrees th) |}.
Proof.
  intros H Hf; destruct (run_shape c r H)
    as ((Lx & Ly & LDx & LDy & Lt) & (HDx & HDy & _ & _) & _).
  destruct (nth_error_within (explore_x (explored r)) (Z.to_nat frame)
              ltac:(lia)) as (px & Hpx).
  destruct (nth_error_within (explore_y (explored r)) (Z.to_nat frame)
              ltac:(lia)) as (py & Hpy).
  destruct (nth_error_within (theta_hist (explored r)) (Z.to_nat frame)
              ltac:(lia)) as (th & Hth).
  exists px, py, th; repeat (split; [assumption|]).
  unfold update.
  destruct (Z.ltb_spec frame (Z.of_nat (length (explore_x (explored r)))))
    as [_|Hge]; [|lia].
  rewrite !py_index_nonneg, !py_prefix_nonneg by lia.
  rewrite HDx, HDy, Hpx, Hpy, Hth; reflexivity.
Qed.

(** [update] on a frame of the return. *)
Lemma update_returning (c : Config) (r : Run R) (frame : Z) (fig : Figure) :
  simulate M R c = Ok r ->
  Z.of_nat (length (explore_x (explored r))) <= frame <
    frames R r ->
  exists hx hy,
    nth_error (home_x (homing r))
      (Z.to_nat (frame - Z.of_nat (length (explore_x (explored r))))) =
      Some hx /\
    nth_error (home_y (homing r))
      (Z.to_nat (frame - Z.of_nat (length (explore_x (explored r))))) =
      Some hy /\
    update M R np_degrees r frame fig =
    Some {| line_explore := line_explore fig;
            line_home :=
              (firstn
                 (Z.to_nat (frame - Z.of_nat (length (explore_x (explored r)))))
                 (home_x (homing r)),
               firstn
                 (Z.to_nat (frame - Z.of_nat (length (explore_x (explored r)))))
                 (home_y (homing r)));
            ant_dot := ([hx], [hy]);
            vector_arrow :=
              Some {| arrow_x := 0; arrow_y := 0;
                      arrow_dx := x (explored r);
                      arrow_dy := y (explored r) |};
            info_text :=
              ReturningPhase (R_mag r) (np_degrees (R_angle r)) |}.
Proof.
  intros H Hf; unfold frames in Hf.
  destruct (run_shape c r H)
    as (_ & (_ & _ & HDx & HDy) & _ & _ & (tx & ty & Hhx & Hhy & Ltx & Lty)).
  assert (Llen : length (home_y (homing r)) = length (home_x (homing r)))
    by (rewrite Hhx, Hhy; simpl; lia).
  set (f := frame - Z.of_nat (length (explore_x (explored r)))) in *.
  destruct (nth_error_within (home_x (homing r)) (Z.to_nat f) ltac:(lia))
    as (hx & Hhx').
  destruct (nth_error_within (home_y (homing r)) (Z.to_nat f) ltac:(lia))
    as (hy & Hhy').
  exists hx, hy; repeat (split; [assumption|]).
  unfold update.
  destruct (Z.ltb_spec frame (Z.of_nat (length (explore_x (explored r)))))
    as [Hlt|_]; [lia|].
  fold f.
  destruct (Z.ltb_spec f (Z.of_nat (length (home_x (homing r)))))
    as [_|Hge]; [|lia].
  rewrite !py_index_nonneg, !py_prefix_nonneg by lia.
  rewrite Hhx', Hhy', HDx, HDy; reflexivity.
Qed.

End DisplayFacts.

(** ** What the animation shows *)

Section Animation.

Variable M : MathLib.
Variable R : RandomSource.
Variable np_degrees : float -> float.

Lemma play_app (r : Run R) (fs1 fs2 : list Z) (fig : Figure) :
  play M R np_degrees r (fs1 ++ fs2) fig =
  (fig' <~ play M R np_degrees r fs1 fig ;; play M R np_degrees r fs2 fig').
Proof.
  revert fig; induction fs1 as [|f fs1 IH]; intros fig; simpl;
    [reflexivity|].
  destruct (update M R np_degrees r f fig) as [fig'|]; simpl;
    [apply IH | reflexivity].
Qed.

Lemma play_snoc (r : Run R) (fs : list Z) (f : Z) (fig : Figure) :
  play M R np_degrees r (fs ++ [f]) fig =
  (fig' <~ play M R np_degrees r fs fig ;; update M R np_degrees r f fig').
Proof.
  rewrite play_app.
  destruct (play M R np_degrees r fs fig) as [fig'|]; simpl; [|reflexivity].
  destruct (update M R np_degrees r f fig'); reflexivity.
Qed.

(** The frames of the exploration, played in order. *)
Lemma play_exploration (c : Config) (r : Run R) (fig : Figure) (k : nat) :
  simulate M R c = Ok r ->
  (k <= length (explore_x (explored r)))%nat ->
  exists fig',
    play M R np_degrees r (map Z.of_nat (seq 0 k)) fig = Some fig' /\
    line_home fig' = line_home fig /\
    ((1 <= k)%nat ->
     line_explore fig' =
       (firstn (k - 1) (explore_x (explored r)),
        firstn (k - 1) (explore_y (explored r)))).
Proof.
  intros H; induction k as [|k IH]; intros Hk.
  - exists fig; split; [reflexivity|]; split; [reflexivity|]; intros; lia.
  - destruct (IH ltac:(lia)) as (fig1 & Hp & Hh & _).
    rewrite seq_S, map_app; cbn [map Nat.add]; rewrite play_snoc, Hp; simpl.
    destruct (update_exploring M R np_degrees c r (Z.of_nat k) fig1 H
                ltac:(lia)) as (px & py & th & _ & _ & _ & Hu).
    rewrite Hu; eexists; split; [reflexivity|]; simpl.
    rewrite Nat2Z.id, Nat.sub_0_r; auto.
Qed.

(** The frames of the return, played in order. *)
Lemma play_return (c : Config) (r : Run R) (fig : Figure) (j : nat) :
  simulate M R c = Ok r ->
  (j <= length (home_x (homing r)))%nat ->
  exists fig',
    play M R np_degrees r
      (map Z.of_nat (seq (length (explore_x (explored r))) j)) fig =
      Some fig' /\
    line_explore fig' = line_explore fig /\
    ((1 <= j)%nat ->
     line_home fig' =
       (firstn (j - 1) (home_x (homing r)),
        firstn (j - 1) (home_y (homing r))) /\
     exists hx hy,
       nth_error (home_x (homing r)) (j - 1) = Some hx /\
       nth_error (home_y (homing r)) (j - 1) = Some hy /\
       ant_dot fig' = ([hx], [hy]) /\
       vector_arrow fig' =
         Some {| arrow_x := 0; arrow_y := 0;
                 arrow_dx := x (explored r); arrow_dy := y (explored r) |}).
Proof.
  intros H; induction j as [|j IH]; intros Hj.
  - exists fig; split; [reflexivity|]; split; [reflexivity|]; intros; lia.
  - destruct (IH ltac:(lia)) as (fig1 & Hp & He & _).
    rewrite seq_S, map_app; cbn [map Nat.add]; rewrite play_snoc, Hp; simpl.
    destruct (update_returning M R np_degrees c r
                (Z.of_nat (length (explore_x (explored r)) + j)) fig1 H
                ltac:(unfold frames; lia)) as (hx & hy & Hhx & Hhy & Hu).
    replace (Z.to_nat
               (Z.of_nat (length (explore_x (explored r)) + j) -
                Z.of_nat (length (explore_x (explored r))))) with j
      in Hhx, Hhy, Hu by lia.
    rewrite Hu; eexists; split; [reflexivity|]; simpl.
    rewrite Nat.sub_0_r; split; [exact He|].
    intros _; split; [reflexivity|].
    exists hx, hy; auto.
Qed.

End Animation.


(** X2. In a frame of the exploration the dot is at the recorded
    position of that index, the arrow from the origin has that position
    as its components (its tip is on the dot), and the exploration line
    holds the positions before that index only: it stops one point short
    of the dot.  The return line is left as it was. *)
Theorem exploration_frame (M : MathLib) (R : RandomSource)
  (np_degrees : float -> float) (c : Config) (r : Run R) :
  simulate M R c = Ok r ->
  forall frame fig,
    0 <= frame < Z.of_nat (length (explore_x (explored r))) ->
    exists fig' px py,
      update M R np_degrees r frame fig = Some fig' /\
      nth_error (explore_x (explored r)) (Z.to_nat frame) = Some px /\
      nth_error (explore_y (explored r)) (Z.to_nat frame) = Some py /\
      ant_dot fig' = ([px], [py]) /\
      vector_arrow fig' =
        Some {| arrow_x := 0; arrow_y := 0;
                arrow_dx := px; arrow_dy := py |} /\
      line_explore fig' =
        (firstn (Z.to_nat frame) (explore_x (explored r)),
         firstn (Z.to_nat frame) (explore_y (explored r))) /\
      length (fst (line_explore fig')) = Z.to_nat frame /\
      length (snd (line_explore fig')) = Z.to_nat frame /\
      line_home fig' = line_home fig.
Proof.
  intros H frame fig Hf.
  destruct (update_exploring M R np_degrees c r frame fig H Hf)
    as (px & py & th & Hpx & Hpy & _ & Hu).
  destruct (run_shape M R c r H) as ((Lx & Ly & _) & _).
  rewrite Hu; eexists _, px, py; split; [reflexivity|]; simpl.
  rewrite !length_firstn.
  repeat split; try assumption; lia.
Qed.

(** X3. In a frame of the return the dot is at the point of the return
    path of index [frame - len(explore_x)], the return line holds the
    points before that index only, the exploration line is left as it
    was, and the arrow points from the origin to the position where the
    exploration ended, the last recorded position. *)
Theorem returning_frame (M : MathLib) (R : RandomSource)
  (np_degrees : float -> float) (c : Config) (r : Run R) :
  simulate M R c = Ok r ->
  forall frame fig,
    Z.of_nat (length (explore_x (explored r))) <= frame < frames R r ->
    exists fig' hx hy ex ey,
      update M R np_degrees r frame fig = Some fig' /\
      nth_error (home_x (homing r))
        (Z.to_nat (frame - Z.of_nat (length (explore_x (explored r))))) =
        Some hx /\
      nth_error (home_y (homing r))
        (Z.to_nat (frame - Z.of_nat (length (explore_x (explored r))))) =
        Some hy /\
      ant_dot fig' = ([hx], [hy]) /\
      line_home fig' =
        (firstn
           (Z.to_nat (frame - Z.of_nat (length (explore_x (explored r)))))
           (home_x (homing r)),
         firstn
           (Z.to_nat (frame - Z.of_nat (length (explore_x (explored r)))))
           (home_y (homing r))) /\
      line_explore fig' = line_explore fig /\
      py_index (explore_x (explored r)) (-1) = Some ex /\
      py_index (explore_y (explored r)) (-1) = Some ey /\
      vector_arrow fig' =
        Some {| arrow_x := 0; arrow_y := 0;
                arrow_dx := ex; arrow_dy := ey |}.
Proof.
  intros H frame fig Hf.
  destruct (update_returning M R np_degrees c r frame fig H Hf)
    as (hx & hy & Hhx & Hhy & Hu).
  destruct (run_shape M R c r H) as ((Lx & Ly & _) & _ & (Hnx & Hny) & _).
  rewrite Hu.
  eexists _, hx, hy, (x (explored r)), (y (explored r)).
  split; [reflexivity|]; simpl.
  rewrite !py_index_negative by lia.
  replace (Z.to_nat (Z.of_nat (length (explore_x (explored r))) + -1))
    with (Z.to_nat (num_explore_steps c)) by lia.
  replace (Z.to_nat (Z.of_nat (length (explore_y (explored r))) + -1))
    with (Z.to_nat (num_explore_steps c)) by lia.
  repeat split; assumption.
Qed.

(** X4. The whole animation, from the figure as it is set up through
    every frame in order, runs without IndexError; when it is over the
    exploration line holds every recorded position but the last, the
    return line holds every point of the return path but the last, and the
    dot is on the last point of the return path.  The last segment of
    either path is never drawn by the animation. *)
Theorem animation_end (M : MathLib) (R : RandomSource)
  (np_degrees : float -> float) (c : Config) (r : Run R) :
  simulate M R c = Ok r ->
  exists fig hx hy,
    animation M R np_degrees r = Some fig /\
    line_explore fig =
      (removelast (explore_x (explored r)),
       removelast (explore_y (explored r))) /\
    line_home fig =
      (removelast (home_x (homing r)), removelast (home_y (homing r))) /\
    py_index (home_x (homing r)) (-1) = Some hx /\
    py_index (home_y (homing r)) (-1) = Some hy /\
    ant_dot fig = ([hx], [hy]).
Proof.
  intros H.
  destruct (run_shape M R c r H)
    as ((Lx & Ly & _) & _ & _ & _ & (tx & ty & Hhx & Hhy & Ltx & Lty)).
  assert (LH : length (home_y (homing r)) = length (home_x (homing r)))
    by (rewrite Hhx, Hhy; simpl; lia).
  assert (LH1 : (1 <= length (home_x (homing r)))%nat)
    by (rewrite Hhx; simpl; lia).
  destruct (play_exploration M R np_degrees c r initial_figure
              (length (explore_x (explored r))) H (le_n _))
    as (fig1 & Hp1 & Hh1 & He1).
  destruct (play_return M R np_degrees c r fig1
              (length (home_x (homing r))) H (le_n _))
    as (fig2 & Hp2 & He2 & Hh2).
  destruct (Hh2 LH1) as (Hline & hx & hy & Hx & Hy & Hdot & _).
  exists fig2, hx, hy.
  split.
  { unfold animation, frames, range.
    rewrite <- Nat2Z.inj_add, Nat2Z.id, seq_app, map_app, play_app.
    rewrite Hp1; simpl; exact Hp2. }
  split.
  { rewrite He2, He1 by lia.
    rewrite !removelast_firstn_len, Ly, Lx, <- !Nat.sub_1_r; reflexivity. }
  split.
  { rewrite Hline, !removelast_firstn_len, LH, <- !Nat.sub_1_r.
    reflexivity. }
  rewrite !py_index_negative by lia.
  replace (Z.to_nat (Z.of_nat (length (home_x (homing r))) + -1))
    with (length (home_x (homing r)) - 1)%nat by lia.
  replace (Z.to_nat (Z.of_nat (length (home_y (homing r))) + -1))
    with (length (home_x (homing r)) - 1)%nat by lia.
  auto.
Qed.

(** X5. At the handover from the exploration to the return nothing on
    the figure jumps: the last frame of the exploration and the first
    frame of the return show the dot at the same place and the same
    arrow, and the magnitude shown in the exploration text of the one is
    [R_mag], the magnitude shown in the text of the other. *)
Theorem phase_handover (M : MathLib) (R : RandomSource)
  (np_degrees : float -> float) (c : Config) (r : Run R) :
  simulate M R c = Ok r ->
  forall fig fig',
  exists last first px py rx ry th,
    update M R np_degrees r
      (Z.of_nat (length (explore_x (explored r))) - 1) fig = Some last /\
    update M R np_degrees r
      (Z.of_nat (length (explore_x (explored r)))) fig' = Some first /\
    ant_dot last = ant_dot first /\
    vector_arrow last = vector_arrow first /\
    info_text last = ExplorationPhase px py rx ry (R_mag r) th /\
    info_text first = ReturningPhase (R_mag r) (np_degrees (R_angle r)).
Proof.
  intros H fig fig'.
  destruct (run_shape M R c r H)
    as ((Lx & Ly & _) & (_ & _ & HDx & HDy) & (Hnx & Hny) & Hmag &
        (tx & ty & Hhx & Hhy & Ltx & Lty)).
  destruct (update_exploring M R np_degrees c r
              (Z.of_nat (length (explore_x (explored r))) - 1) fig H
              ltac:(lia)) as (px & py & th & Hpx & Hpy & _ & Hu1).
  destruct (update_returning M R np_degrees c r
              (Z.of_nat (length (explore_x (explored r)))) fig' H
              ltac:(unfold frames; rewrite Hhx; simpl length; lia))
    as (hx & hy & Hx & Hy & Hu2).
  replace (Z.to_nat (Z.of_nat (length (explore_x (explored r))) - 1))
    with (Z.to_nat (num_explore_steps c)) in Hpx, Hpy by lia.
  rewrite Z.sub_diag in Hx, Hy; rewrite Hhx in Hx; rewrite Hhy in Hy.
  simpl in Hx, Hy.
  assert (px = x (explored r)) by congruence.
  assert (py = y (explored r)) by congruence.
  assert (hx = x (explored r)) by congruence.
  assert (hy = y (explored r)) by congruence.
  subst px py hx hy.
  rewrite Hu1, Hu2; eexists _, _, _, _, _, _, _.
  split; [reflexivity|]; split; [reflexivity|]; simpl.
  rewrite Hmag, HDx, HDy; repeat split; reflexivity.
Qed.


(** X7. The static summary plot is drawn without IndexError; its Food
    marker, taken from the last recorded position, is the tip of the
    resultant arrow drawn from the origin, the first point of the
    returning path and the last point of the exploration path. *)
Theorem summary_plot_markers (M : MathLib) (R : RandomSource) (c : Config)
  (r : Run R) :
  simulate M R c = Ok r ->
  exists p,
    summary_plot R r = Some p /\
    food_marker p = (arrow_dx (resultant p), arrow_dy (resultant p)) /\
    (arrow_x (resultant p), arrow_y (resultant p)) = nest_marker p /\
    nth_error (fst (returning_path p)) 0 = Some (fst (food_marker p)) /\
    nth_error (snd (returning_path p)) 0 = Some (snd (food_marker p)) /\
    last (fst (exploration_path p)) 0%float = fst (food_marker p) /\
    last (snd (exploration_path p)) 0%float = snd (food_marker p).
Proof.
  intros H.
  destruct (run_shape M R c r H)
    as ((Lx & Ly & _) & (_ & _ & HDx & HDy) & (Hnx & Hny) & _ &
        (tx & ty & Hhx & Hhy & _)).
  unfold summary_plot.
  rewrite !py_index_negative by lia.
  replace (Z.to_nat (Z.of_nat (length (explore_x (explored r))) + -1))
    with (Z.to_nat (num_explore_steps c)) by lia.
  replace (Z.to_nat (Z.of_nat (length (explore_y (explored r))) + -1))
    with (Z.to_nat (num_explore_steps c)) by lia.
  rewrite Hnx, Hny; simpl.
  eexists; split; [reflexivity|]; simpl.
  rewrite HDx, HDy, Hhx, Hhy; simpl.
  repeat split; try reflexivity.
  - apply nth_error_split in Hnx; destruct Hnx as (l1 & l2 & Hl & Hlen).
    assert (l2 = []) by
      (destruct l2; [reflexivity|];
       rewrite Hl, length_app in Lx; simpl in Lx; lia).
    subst l2; rewrite Hl; apply last_last.
  - apply nth_error_split in Hny; destruct Hny as (l1 & l2 & Hl & Hlen).
    assert (l2 = []) by
      (destruct l2; [reflexivity|];
       rewrite Hl, length_app in Ly; simpl in Ly; lia).
    subst l2; rewrite Hl; apply last_last.
Qed.

(** ** More on the simulation *)

Section HeadingInputs.

Variables M1 M2 : MathLib.
Variable R : RandomSource.
Variables c1 c2 : Config.

Hypothesis same_interval : scan_interval c1 = scan_interval c2.
Hypothesis same_gain : scan_gain c1 = scan_gain c2.
Hypothesis same_reference : sun_direction c1 = sun_direction c2.

Lemma explore_body_heading_inputs (step : Z) (v1 v2 : Vars R) :
  heading_part v1 = heading_part v2 ->
  result_map heading_part (explore_body M1 R c1 step v1) =
  result_map heading_part (explore_body M2 R c2 step v2).
Proof.
  unfold heading_part; intros H; injection H as Ht Hh Hg.
  unfold explore_body; rewrite Hg, same_interval, same_gain, same_reference.
  destruct (np_random_uniform R low high (rng v2)) as [d g'].
  rewrite Ht, Hh.
  destruct (py_mod step (scan_interval c2)) as [r|e]; reflexivity.
Qed.

Lemma explore_upto_heading_inputs (g : rng_state R) (k : nat) :
  result_map heading_part (explore_upto M1 R c1 g k) =
  result_map heading_part (explore_upto M2 R c2 g k).
Proof.
  induction k as [|k IH]; [reflexivity|].
  rewrite !explore_upto_S.
  destruct (explore_upto M1 R c1 g k) as [u1|e1];
    destruct (explore_upto M2 R c2 g k) as [u2|e2];
    simpl in IH; try discriminate; simpl bind; [|exact IH].
  apply explore_body_heading_inputs; congruence.
Qed.

End HeadingInputs.

(** X8. The heading never depends on where the agent is: two
    explorations from the same generator state that agree on the number
    of steps, the scan interval, the scan gain and the reference direction
    record the same headings and leave the generator in the same state
    (or raise the same exception), whatever their step lengths and
    whatever [np.cos] and [np.sin] compute. *)
Theorem headings_ignore_position (M1 M2 : MathLib) (R : RandomSource)
  (c1 c2 : Config) (g : rng_state R) :
  num_explore_steps c1 = num_explore_steps c2 ->
  scan_interval c1 = scan_interval c2 ->
  scan_gain c1 = scan_gain c2 ->
  sun_direction c1 = sun_direction c2 ->
  result_map (fun v => (theta_hist v, theta v, rng v)) (explore M1 R c1 g) =
  result_map (fun v => (theta_hist v, theta v, rng v)) (explore M2 R c2 g).
Proof.
  intros Hn Hi Hg Hr.
  rewrite !explore_upto_all, Hn.
  pose proof (explore_upto_heading_inputs M1 M2 R c1 c2 Hi Hg Hr g
                (Z.to_nat (num_explore_steps c2))) as H.
  destruct (explore_upto M1 R c1 g _) as [u1|e1];
    destruct (explore_upto M2 R c2 g _) as [u2|e2];
    simpl in H |- *; try discriminate; [|congruence].
  unfold heading_part in H; congruence.
Qed.

Section AppendOnly.

Variable M : MathLib.
Variable R : RandomSource.

Lemma firstn_snoc_old {A : Type} (l : list A) (a : A) (k : nat) :
  (k <= length l)%nat -> firstn k (l ++ [a]) = firstn k l.
Proof.
  intros Hk; rewrite firstn_app.
  replace (k - length l)%nat with 0%nat by lia.
  simpl; apply app_nil_r.
Qed.

Lemma explore_upto_prefix (c : Config) (g : rng_state R) (n : nat) :
  forall v, explore_upto M R c g n = Ok v ->
  forall k, (k <= n)%nat ->
  exists u, explore_upto M R c g k = Ok u /\
    explore_x u = firstn (S k) (explore_x v) /\
    explore_y u = firstn (S k) (explore_y v) /\
    Dx_hist u = firstn (S k) (Dx_hist v) /\
    Dy_hist u = firstn (S k) (Dy_hist v) /\
    theta_hist u = firstn (S k) (theta_hist v).
Proof.
  induction n as [|n IH]; intros v H k Hk.
  - replace k with 0%nat by lia; exists v; split; [exact H|].
    apply F64Facts.Ok_inj in H; subst v; repeat split; reflexivity.
  - destruct (Nat.eq_dec k (S n)) as [->|Hne].
    + exists v; split; [exact H|].
      destruct (explore_upto_reached M R c g _ v H).
      repeat split; symmetry; apply firstn_all2; lia.
    + rewrite explore_upto_S in H; apply bind_Ok in H.
      destruct H as (w & Hw & Hb).
      destruct (IH w Hw k ltac:(lia)) as (u & Hu & Hx & Hy & HDx & HDy & Ht).
      destruct (explore_upto_reached M R c g _ w Hw).
      apply explore_body_pass in Hb; destruct Hb.
      exists u; split; [exact Hu|].
      repeat split;
        match goal with
        | Hh : ?h v = ?h w ++ _ |- _ = firstn _ (?h v) =>
            rewrite Hh, firstn_snoc_old by lia; assumption
        end.
Qed.

End AppendOnly.

(** X9. The histories are append-only: what the exploration has
    recorded after [k] passes is never changed by the later passes; the
    five histories after [k] passes are the first [k + 1] entries of the
    final ones. *)
Theorem histories_append_only (M : MathLib) (R : RandomSource) (c : Config)
  (g : rng_state R) (v : Vars R) (k : nat) :
  explore M R c g = Ok v ->
  (k <= Z.to_nat (num_explore_steps c))%nat ->
  exists u,
    explore_upto M R c g k = Ok u /\
    explore_x u = firstn (S k) (explore_x v) /\
    explore_y u = firstn (S k) (explore_y v) /\
    Dx_hist u = firstn (S k) (Dx_hist v) /\
    Dy_hist u = firstn (S k) (Dy_hist v) /\
    theta_hist u = firstn (S k) (theta_hist v).
Proof.
  rewrite explore_upto_all; intros Hv Hk.
  exact (explore_upto_prefix M R c g _ v Hv k Hk).
Qed.

(** The sign of a rounded result is the sign it was given. *)
Lemma binary_round_aux_sign (s : bool) (m e : Z) (l : location) :
  match binary_round_aux prec emax s m e l with
  | S754_finite s' _ _ | S754_infinity s' | S754_zero s' => s' = s
  | S754_nan => True
  end.
Proof.
  unfold binary_round_aux.
  destruct (shr_fexp prec emax m e l) as [mrs' e'].
  destruct (shr_fexp _ _ _ _ _) as [mrs'' e''].
  destruct (shr_m mrs''); try reflexivity.
  destruct (e'' <=? emax - prec)%Z; reflexivity.
Qed.

(** [int()] of nothing negative over a negative float is not positive. *)
Lemma py_int_div_neg (a b : float) (n : Z) :
  F64.nonneg a = true -> (b <? 0)%float = true ->
  F64.py_int (a / b)%float = Ok n -> n <= 0.
Proof.
  unfold F64.nonneg, F64.py_int.
  rewrite FloatAxioms.ltb_spec, div_spec, F64Facts.Prim2SF_zero.
  unfold SFltb, SF64div, SFdiv.
  destruct (Prim2SF b) as [s'|[|]| |[|] m' e']; try discriminate;
    destruct (Prim2SF a) as [s|[|]| |[|] m e]; try discriminate;
    intros _ _; cbn [xorb];
    try (intros H; apply F64Facts.Ok_inj in H; lia).
  destruct (SFdiv_core_binary _ _ _ _ _ _) as [[mz ez] lz].
  pose proof (binary_round_aux_sign true mz ez lz) as Hs.
  destruct (binary_round_aux prec emax true mz ez lz) as [s|s| |s m1 e1];
    try discriminate.
  - intros H; apply F64Facts.Ok_inj in H; lia.
  - subst s; intros H; apply F64Facts.Ok_inj in H.
    unfold cond_Zopp in H; subst n.
    destruct (0 <=? e1) eqn:He.
    + apply Z.leb_le in He.
      pose proof (Z.pow_nonneg 2 e1 ltac:(lia)).
      apply Z.opp_nonpos_nonneg, Z.mul_nonneg_nonneg; lia.
    + apply Z.leb_gt in He.
      apply Z.opp_nonpos_nonneg, Z.div_pos; [lia|].
      apply Z.pow_pos_nonneg; lia.
Qed.

(** X10. With a negative step length the agent never walks home: the
    number of return steps is zero or negative, the return loop does not
    run, and the return path is the single point where the exploration
    ended. *)
Theorem negative_step_length_stays (M : MathLib) (R : RandomSource)
  (c : Config) (r : Run R) :
  (step_length c <? 0)%float = true ->
  simulate M R c = Ok r ->
  num_home_steps r <= 0 /\
  home_x (homing r) = [x (explored r)] /\
  home_y (homing r) = [y (explored r)].
Proof.
  intros Hneg H; apply simulate_Ok in H; destruct H as (_ & Hg).
  apply go_home_Ok in Hg.
  destruct Hg as (_ & Hmag & _ & _ & Hint & Hx & Hy).
  assert (Hn : num_home_steps r <= 0).
  { apply (py_int_div_neg (R_mag r) (step_length c)); [|exact Hneg|exact Hint].
    rewrite Hmag; apply F64Facts.sqrt_nonneg. }
  split; [exact Hn|].
  replace (Z.to_nat (num_home_steps r)) with 0%nat in Hx, Hy by lia.
  split; assumption.
Qed.

(** ** Worked examples of the added properties *)

Module WorkedMore.

Import Examples.
Local Open Scope float_scope.

Lemma scenario_completes :
  simulate ref_math (replay zero_draws) scenario = Ok scenario_run.
Proof. vm_compute; reflexivity. Qed.


(** X2 on the scenario: frame 2 shows the dot at (1, 0) and two points
    of the exploration line. *)
Lemma exploration_frame_scenario :
  simulate ref_math (replay zero_draws) scenario = Ok scenario_run /\
  (0 <= 2 < Z.of_nat (length (explore_x (explored scenario_run))))%Z /\
  exists fig',
    update ref_math (replay zero_draws) ref_degrees scenario_run 2
      initial_figure = Some fig' /\
    ant_dot fig' = ([1], [0]) /\
    vector_arrow fig' =
      Some {| arrow_x := 0; arrow_y := 0; arrow_dx := 1; arrow_dy := 0 |} /\
    line_explore fig' = ([0; 0.5], [0; 0]).
Proof.
  assert (Hr : simulate ref_math (replay zero_draws) scenario =
               Ok scenario_run) by (vm_compute; reflexivity).
  assert (Hf : (0 <= 2 <
                Z.of_nat (length (explore_x (explored scenario_run))))%Z)
    by (vm_compute; split; [discriminate | reflexivity]).
  split; [exact Hr|]; split; [exact Hf|].
  destruct (exploration_frame ref_math (replay zero_draws) ref_degrees
              scenario scenario_run Hr 2%Z initial_figure Hf)
    as (fig' & px & py & Hu & Hpx & Hpy & Hdot & Harrow & Hline & _).
  exists fig'; split; [exact Hu|].
  vm_compute in Hpx, Hpy.
  injection Hpx as <-; injection Hpy as <-.
  repeat split; assumption.
Defined.

(** X3 on the scenario: frame 5 shows the dot at (1, 0) on the way home
    and the arrow to the food at (1.5, 0). *)
Lemma returning_frame_scenario :
  simulate ref_math (replay zero_draws) scenario = Ok scenario_run /\
  (Z.of_nat (length (explore_x (explored scenario_run))) <= 5 <
   frames (replay zero_draws) scenario_run)%Z /\
  exists fig',
    update ref_math (replay zero_draws) ref_degrees scenario_run 5
      initial_figure = Some fig' /\
    line_explore fig' = line_explore initial_figure /\
    vector_arrow fig' =
      Some {| arrow_x := 0; arrow_y := 0; arrow_dx := 1.5; arrow_dy := 0 |}.
Proof.
  assert (Hr : simulate ref_math (replay zero_draws) scenario =
               Ok scenario_run) by (vm_compute; reflexivity).
  assert (Hf : (Z.of_nat (length (explore_x (explored scenario_run))) <= 5 <
                frames (replay zero_draws) scenario_run)%Z)
    by (vm_compute; split; [discriminate | reflexivity]).
  split; [exact Hr|]; split; [exact Hf|].
  destruct (returning_frame ref_math (replay zero_draws) ref_degrees
              scenario scenario_run Hr 5%Z initial_figure Hf)
    as (fig' & hx & hy & ex & ey & Hu & _ & _ & _ & _ & Hline & Hex & Hey &
        Harrow).
  exists fig'; split; [exact Hu|]; split; [exact Hline|].
  vm_compute in Hex, Hey.
  injection Hex as <-; injection Hey as <-.
  exact Harrow.
Defined.

(** X4 on the scenario: the lines at the end of the animation. *)
Lemma animation_end_scenario :
  simulate ref_math (replay zero_draws) scenario = Ok scenario_run /\
  exists fig,
    animation ref_math (replay zero_draws) ref_degrees scenario_run =
      Some fig /\
    line_explore fig = ([0; 0.5; 1], [0; 0; 0]) /\
    fst (line_home fig) = [1.5; 1; 0.5].
Proof.
  assert (Hr : simulate ref_math (replay zero_draws) scenario =
               Ok scenario_run) by (vm_compute; reflexivity).
  split; [exact Hr|].
  destruct (animation_end ref_math (replay zero_draws) ref_degrees scenario
              scenario_run Hr)
    as (fig & hx & hy & Ha & He & Hh & _).
  exists fig; split; [exact Ha|].
  rewrite He, Hh; split; reflexivity.
Defined.

(** X5 on the scenario. *)
Lemma phase_handover_scenario :
  simulate ref_math (replay zero_draws) scenario = Ok scenario_run /\
  exists last first,
    update ref_math (replay zero_draws) ref_degrees scenario_run
      (Z.of_nat (length (explore_x (explored scenario_run))) - 1)
      initial_figure = Some last /\
    update ref_math (replay zero_draws) ref_degrees scenario_run
      (Z.of_nat (length (explore_x (explored scenario_run))))
      last = Some first /\
    ant_dot last = ant_dot first /\
    vector_arrow last = vector_arrow first.
Proof.
  assert (Hr : simulate ref_math (replay zero_draws) scenario =
               Ok scenario_run) by (vm_compute; reflexivity).
  split; [exact Hr|].
  destruct (phase_handover ref_math (replay zero_draws) ref_degrees scenario
              scenario_run Hr initial_figure
              {| line_explore := ([0; 0.5; 1], [0; 0; 0]);
                 line_home := ([], []);
                 ant_dot := ([1.5], [0]);
                 vector_arrow :=
                   Some {| arrow_x := 0; arrow_y := 0;
                           arrow_dx := 1.5; arrow_dy := 0 |};
                 info_text :=
                   ExplorationPhase 1.5 0 1.5 0 1.5 (ref_degrees 0) |})
    as (last & first & px & py & rx & ry & th & H1 & H2 & Hd & Ha & _).
  exists last, first; split; [exact H1|].
  assert (Hl : Some last =
               Some {| line_explore := ([0; 0.5; 1], [0; 0; 0]);
                       line_home := ([], []);
                       ant_dot := ([1.5], [0]);
                       vector_arrow :=
                         Some {| arrow_x := 0; arrow_y := 0;
                                 arrow_dx := 1.5; arrow_dy := 0 |};
                       info_text :=
                         ExplorationPhase 1.5 0 1.5 0 1.5 (ref_degrees 0) |})
    by (rewrite <- H1; vm_compute; reflexivity).
  injection Hl as Hl; rewrite <- Hl in H2.
  repeat split; assumption.
Defined.

(** X7 on the scenario: the Food marker at (1.5, 0). *)
Lemma summary_plot_markers_scenario :
  simulate ref_math (replay zero_draws) scenario = Ok scenario_run /\
  exists p,
    summary_plot (replay zero_draws) scenario_run = Some p /\
    food_marker p = (1.5, 0) /\
    food_marker p = (arrow_dx (resultant p), arrow_dy (resultant p)).
Proof.
  assert (Hr : simulate ref_math (replay zero_draws) scenario =
               Ok scenario_run) by (vm_compute; reflexivity).
  split; [exact Hr|].
  destruct (summary_plot_markers ref_math (replay zero_draws) scenario
              scenario_run Hr) as (p & Hp & Hfood & _).
  exists p; split; [exact Hp|]; split; [|exact Hfood].
  vm_compute in Hp; injection Hp as <-; reflexivity.
Defined.

(** X8 on the scenario and the scenario walked backward. *)
Lemma headings_ignore_position_scenario :
  num_explore_steps scenario = num_explore_steps negative_length /\
  scan_interval scenario = scan_interval negative_length /\
  scan_gain scenario = scan_gain negative_length /\
  sun_direction scenario = sun_direction negative_length /\
  (step_length scenario =? step_length negative_length) = false /\
  result_map (fun v => (theta_hist v, theta v, rng v))
    (explore ref_math (replay zero_draws) scenario zero_draws) =
  result_map (fun v => (theta_hist v, theta v, rng v))
    (explore ref_math (replay zero_draws) negative_length zero_draws).
Proof.
  assert (Hn : num_explore_steps scenario = num_explore_steps negative_length)
    by reflexivity.
  assert (Hi : scan_interval scenario = scan_interval negative_length)
    by reflexivity.
  assert (Hg : scan_gain scenario = scan_gain negative_length)
    by reflexivity.
  assert (Hs : sun_direction scenario = sun_direction negative_length)
    by reflexivity.
  repeat (split; [assumption || reflexivity|]).
  exact (headings_ignore_position ref_math ref_math (replay zero_draws)
           scenario negative_length zero_draws Hn Hi Hg Hs).
Defined.

(** X9 on the scenario, after one pass. *)
Lemma histories_append_only_scenario :
  explore ref_math (replay zero_draws) scenario zero_draws =
    Ok scenario_explored /\
  (1 <= Z.to_nat (num_explore_steps scenario))%nat /\
  exists u,
    explore_upto ref_math (replay zero_draws) scenario zero_draws 1 = Ok u /\
    explore_x u = [0; 0.5] /\
    theta_hist u = [0; 0].
Proof.
  assert (He : explore ref_math (replay zero_draws) scenario zero_draws =
               Ok scenario_explored) by (vm_compute; reflexivity).
  assert (Hk : (1 <= Z.to_nat (num_explore_steps scenario))%nat)
    by (vm_compute; lia).
  split; [exact He|]; split; [exact Hk|].
  destruct (histories_append_only ref_math (replay zero_draws) scenario
              zero_draws scenario_explored 1 He Hk)
    as (u & Hu & Hx & _ & _ & _ & Ht).
  exists u; split; [exact Hu|]; split; assumption.
Defined.

(** X10 on the scenario walked backward. *)
Lemma negative_step_length_stays_scenario :
  (step_length negative_length <? 0) = true /\
  exists r,
    simulate ref_math (replay zero_draws) negative_length = Ok r /\
    (num_home_steps r <= 0)%Z /\
    home_x (homing r) = [x (explored r)] /\
    home_y (homing r) = [y (explored r)].
Proof.
  assert (Hneg : (step_length negative_length <? 0) = true) by reflexivity.
  split; [exact Hneg|].
  destruct (simulate ref_math (replay zero_draws) negative_length)
    as [r|e] eqn:Hr; [|vm_compute in Hr; discriminate].
  exists r; split; [reflexivity|].
  exact (negative_step_length_stays ref_math (replay zero_draws)
           negative_length r Hneg Hr).
Defined.

End WorkedMore.

(** ** The order of binary64 and the axis limits *)

Lemma SFleb_rank (f1 f2 : spec_float) :
  sf_number f1 -> sf_number f2 ->
  (SFleb f1 f2 = true <-> lex_le (sf_rank f1) (sf_rank f2)).
Proof.
  unfold SFleb, SFcompare, lex_le, sf_rank.
  destruct f1 as [s1|[|]| |[|] m1 e1]; try contradiction;
    destruct f2 as [s2|[|]| |[|] m2 e2]; try contradiction; intros _ _;
    try (split; [intros _; lia | reflexivity]);
    try (split; [discriminate | lia]);
    change (Pos.compare_cont Eq ?a ?b) with (Pos.compare a b);
    destruct (Z.compare_spec e1 e2); destruct (Pos.compare_spec m1 m2);
    simpl; split; intros; try discriminate; try reflexivity; try lia.
Qed.

Lemma SFltb_rank (f1 f2 : spec_float) :
  sf_number f1 -> sf_number f2 ->
  (SFltb f1 f2 = false <-> lex_le (sf_rank f2) (sf_rank f1)).
Proof.
  unfold SFltb, SFcompare, lex_le, sf_rank.
  destruct f1 as [s1|[|]| |[|] m1 e1]; try contradiction;
    destruct f2 as [s2|[|]| |[|] m2 e2]; try contradiction; intros _ _;
    try (split; [intros _; lia | reflexivity]);
    try (split; [discriminate | lia]);
    change (Pos.compare_cont Eq ?a ?b) with (Pos.compare a b);
    destruct (Z.compare_spec e1 e2); destruct (Pos.compare_spec m1 m2);
    simpl; split; intros; try discriminate; try reflexivity; try lia.
Qed.

Lemma lex_le_refl (a : Z * Z * Z) : lex_le a a.
Proof. destruct a as [[a1 a2] a3]; unfold lex_le; lia. Qed.

Lemma lex_le_trans (a b c : Z * Z * Z) :
  lex_le a b -> lex_le b c -> lex_le a c.
Proof.
  destruct a as [[a1 a2] a3], b as [[b1 b2] b3], c as [[c1 c2] c3].
  unfold lex_le; lia.
Qed.

Lemma lex_le_total (a b : Z * Z * Z) : lex_le a b \/ lex_le b a.
Proof.
  destruct a as [[a1 a2] a3], b as [[b1 b2] b3]; unfold lex_le; lia.
Qed.

Section FloatOrder.

Local Open Scope float_scope.

(** [p == p] holds of every float but NaN. *)
Lemma number_spec (p : float) : (p =? p) = true -> sf_number (Prim2SF p).
Proof.
  rewrite FloatAxioms.eqb_spec.
  destruct (Prim2SF p); simpl; [exact (fun _ => I) .. | discriminate |
                                exact (fun _ => I)].
Qed.

Lemma leb_refl (p : float) : (p =? p) = true -> (p <=? p) = true.
Proof.
  intros Hp; apply number_spec in Hp.
  rewrite FloatAxioms.leb_spec; apply SFleb_rank; try assumption.
  apply lex_le_refl.
Qed.

Lemma leb_trans (a b c : float) :
  (a =? a) = true -> (b =? b) = true -> (c =? c) = true ->
  (a <=? b) = true -> (b <=? c) = true -> (a <=? c) = true.
Proof.
  intros Ha Hb Hc; apply number_spec in Ha, Hb, Hc.
  rewrite !FloatAxioms.leb_spec; intros H1 H2.
  apply SFleb_rank in H1, H2; try assumption.
  apply SFleb_rank; try assumption.
  exact (lex_le_trans _ _ _ H1 H2).
Qed.

Lemma not_ltb_leb (a b : float) :
  (a =? a) = true -> (b =? b) = true ->
  (b <? a) = false -> (a <=? b) = true.
Proof.
  intros Ha Hb; apply number_spec in Ha, Hb.
  rewrite FloatAxioms.ltb_spec, FloatAxioms.leb_spec; intros H.
  apply SFltb_rank in H; try assumption.
  apply SFleb_rank; assumption.
Qed.

Lemma ltb_leb (a b : float) :
  (a =? a) = true -> (b =? b) = true ->
  (b <? a) = true -> (b <=? a) = true.
Proof.
  intros Ha Hb; apply number_spec in Ha, Hb.
  rewrite FloatAxioms.ltb_spec, FloatAxioms.leb_spec; intros H.
  apply SFleb_rank; try assumption.
  destruct (lex_le_total (sf_rank (Prim2SF b)) (sf_rank (Prim2SF a)))
    as [Hle|Hle]; [exact Hle|].
  apply SFltb_rank in Hle; try assumption; congruence.
Qed.

(** The minimum kept: an element of the list, below every element when
    none is NaN. *)
Lemma min_kept_In (l : list float) (a : float) :
  In (fold_left (fun kept item => if item <? kept then item else kept) l a)
     (a :: l).
Proof.
  revert a; induction l as [|b l IH]; intros a; simpl; [auto|].
  destruct (IH (if b <? a then b else a)) as [H|H]; [|auto].
  destruct (b <? a); auto.
Qed.

Lemma max_kept_In (l : list float) (a : float) :
  In (fold_left (fun kept item => if kept <? item then item else kept) l a)
     (a :: l).
Proof.
  revert a; induction l as [|b l IH]; intros a; simpl; [auto|].
  destruct (IH (if a <? b then b else a)) as [H|H]; [|auto].
  destruct (a <? b); auto.
Qed.

Lemma min_kept_below (l : list float) (a : float) :
  (forall p, In p (a :: l) -> (p =? p) = true) ->
  forall p, In p (a :: l) ->
  (fold_left (fun kept item => if item <? kept then item else kept) l a
   <=? p) = true.
Proof.
  revert a; induction l as [|b l IH]; intros a Hn p Hp.
  - destruct Hp as [<-|[]]; simpl; apply leb_refl, Hn; simpl; auto.
  - simpl fold_left.
    set (k := if b <? a then b else a).
    assert (Hk : (k =? k) = true)
      by (unfold k; destruct (b <? a); apply Hn; simpl; auto).
    assert (Hka : (k <=? a) = true).
    { unfold k; destruct (b <? a) eqn:Hc.
      - apply ltb_leb; try (apply Hn; simpl; auto); exact Hc.
      - apply leb_refl, Hn; simpl; auto. }
    assert (Hkb : (k <=? b) = true).
    { unfold k; destruct (b <? a) eqn:Hc.
      - apply leb_refl, Hn; simpl; auto.
      - apply not_ltb_leb; try (apply Hn; simpl; auto); exact Hc. }
    assert (Hn' : forall q, In q (k :: l) -> (q =? q) = true).
    { intros q [<-|Hq]; [exact Hk|]; apply Hn; simpl; auto. }
    assert (Hrk : (fold_left
                     (fun kept item => if item <? kept then item else kept)
                     l k <=? k) = true)
      by (apply IH; [exact Hn' | simpl; auto]).
    assert (Hr : (fold_left
                    (fun kept item => if item <? kept then item else kept)
                    l k =?
                  fold_left
                    (fun kept item => if item <? kept then item else kept)
                    l k) = true)
      by (apply Hn', min_kept_In).
    destruct Hp as [<-|[<-|Hp]].
    + apply (leb_trans _ k); try assumption; apply Hn; simpl; auto.
    + apply (leb_trans _ k); try assumption; apply Hn; simpl; auto.
    + apply IH; [exact Hn' | simpl; auto].
Qed.

Lemma max_kept_above (l : list float) (a : float) :
  (forall p, In p (a :: l) -> (p =? p) = true) ->
  forall p, In p (a :: l) ->
  (p <=?
   fold_left (fun kept item => if kept <? item then item else kept) l a)
  = true.
Proof.
  revert a; induction l as [|b l IH]; intros a Hn p Hp.
  - destruct Hp as [<-|[]]; simpl; apply leb_refl, Hn; simpl; auto.
  - simpl fold_left.
    set (k := if a <? b then b else a).
    assert (Hk : (k =? k) = true)
      by (unfold k; destruct (a <? b); apply Hn; simpl; auto).
    assert (Hka : (a <=? k) = true).
    { unfold k; destruct (a <? b) eqn:Hc.
      - apply ltb_leb; try (apply Hn; simpl; auto); exact Hc.
      - apply leb_refl, Hn; simpl; auto. }
    assert (Hkb : (b <=? k) = true).
    { unfold k; destruct (a <? b) eqn:Hc.
      - apply leb_refl, Hn; simpl; auto.
      - apply not_ltb_leb; try (apply Hn; simpl; auto); exact Hc. }
    assert (Hn' : forall q, In q (k :: l) -> (q =? q) = true).
    { intros q [<-|Hq]; [exact Hk|]; apply Hn; simpl; auto. }
    assert (Hrk : (k <=?
                   fold_left
                     (fun kept item => if kept <? item then item else kept)
                     l k) = true)
      by (apply IH; [exact Hn' | simpl; auto]).
    assert (Hr : (fold_left
                    (fun kept item => if kept <? item then item else kept)
                    l k =?
                  fold_left
                    (fun kept item => if kept <? item then item else kept)
                    l k) = true)
      by (apply Hn', max_kept_In).
    destruct Hp as [<-|[<-|Hp]].
    + apply (leb_trans _ k); try assumption; apply Hn; simpl; auto.
    + apply (leb_trans _ k); try assumption; apply Hn; simpl; auto.
    + apply IH; [exact Hn' | simpl; auto].
Qed.

(** [min] and [max] of a list that is not empty. *)
Lemma py_min_max_spec (l : list float) :
  l <> [] ->
  exists lo hi,
    py_min l = Some lo /\ py_max l = Some hi /\ In lo l /\ In hi l /\
    ((forall p, In p l -> (p =? p) = true) ->
     forall p, In p l -> (lo <=? p) = true /\ (p <=? hi) = true).
Proof.
  destruct l as [|a l]; [congruence|]; intros _.
  eexists _, _; split; [reflexivity|]; split; [reflexivity|].
  split; [apply min_kept_In|]; split; [apply max_kept_In|].
  intros Hn p Hp; split;
    [apply min_kept_below | apply max_kept_above]; assumption.
Qed.

End FloatOrder.

(** X11. The axis limits of the animation are computed without
    ValueError, from the least and the greatest recorded coordinate with a
    margin of 2: each of the four values the margin is applied to is a
    coordinate of a recorded point, and when no coordinate is NaN every
    recorded point of the exploration and of the return lies between
    them. *)
Theorem axis_limits_enclose (M : MathLib) (R : RandomSource) (c : Config)
  (r : Run R) :
  simulate M R c = Ok r ->
  let all_x := explore_x (explored r) ++ home_x (homing r) in
  let all_y := explore_y (explored r) ++ home_y (homing r) in
  exists lo_x hi_x lo_y hi_y,
    axis_limits r =
      Some ((lo_x - margin, hi_x + margin)%float,
            (lo_y - margin, hi_y + margin)%float) /\
    py_min all_x = Some lo_x /\ py_max all_x = Some hi_x /\
    py_min all_y = Some lo_y /\ py_max all_y = Some hi_y /\
    In lo_x all_x /\ In hi_x all_x /\ In lo_y all_y /\ In hi_y all_y /\
    ((forall p, In p all_x -> (p =? p)%float = true) ->
     forall p, In p all_x ->
       (lo_x <=? p)%float = true /\ (p <=? hi_x)%float = true) /\
    ((forall p, In p all_y -> (p =? p)%float = true) ->
     forall p, In p all_y ->
       (lo_y <=? p)%float = true /\ (p <=? hi_y)%float = true).
Proof.
  intros H all_x all_y.
  destruct (run_shape M R c r H) as ((Lx & Ly & _) & _).
  assert (Hx : all_x <> []).
  { unfold all_x; destruct (explore_x (explored r));
      [discriminate | discriminate]. }
  assert (Hy : all_y <> []).
  { unfold all_y; destruct (explore_y (explored r));
      [discriminate | discriminate]. }
  destruct (py_min_max_spec all_x Hx)
    as (lo_x & hi_x & Hminx & Hmaxx & Hinx & Hinx' & Hbx).
  destruct (py_min_max_spec all_y Hy)
    as (lo_y & hi_y & Hminy & Hmaxy & Hiny & Hiny' & Hby).
  exists lo_x, hi_x, lo_y, hi_y.
  split.
  { unfold axis_limits; fold all_x all_y.
    rewrite Hminx, Hmaxx, Hminy, Hmaxy; reflexivity. }
  repeat (split; [assumption|]); assumption.
Qed.

(** X11 on the scenario. *)
Lemma axis_limits_enclose_scenario :
  simulate Examples.ref_math (Examples.replay Examples.zero_draws)
    Examples.scenario = Ok Examples.scenario_run /\
  exists lo_x hi_x lo_y hi_y,
    axis_limits Examples.scenario_run =
      Some ((lo_x - margin, hi_x + margin)%float,
            (lo_y - margin, hi_y + margin)%float) /\
    py_min (explore_x (explored Examples.scenario_run) ++
            home_x (homing Examples.scenario_run)) = Some lo_x /\
    py_max (explore_x (explored Examples.scenario_run) ++
            home_x (homing Examples.scenario_run)) = Some hi_x.
Proof.
  assert (Hr : simulate Examples.ref_math
                 (Examples.replay Examples.zero_draws) Examples.scenario =
               Ok Examples.scenario_run) by (vm_compute; reflexivity).
  split; [exact Hr|].
  destruct (axis_limits_enclose Examples.ref_math
              (Examples.replay Examples.zero_draws) Examples.scenario
              Examples.scenario_run Hr)
    as (lo_x & hi_x & lo_y & hi_y & Hl & Hminx & Hmaxx & _).
  exists lo_x, hi_x, lo_y, hi_y; auto.
Defined.
